(** * react-query demo: the fetchers, the components and the cache coordination

    A shallow embedding of the TypeScript sources

      - [src/api/userApi.ts]                      ([fetchUser])
      - [src/components/FetchDataReactQuery.tsx]  ([fetchPosts], the component)
      - [src/components/CacheStatus.tsx], [UserInfo.tsx], [UserCard.tsx]

    followed by a model of the cache coordination service the specification
    describes (CacheStore, InFlightRegistry, QueryCoordinator, Presentation
    Adapter).  The coordination logic itself is the [@tanstack/react-query]
    library and is not part of the sources; its definitions are marked as
    modelled from the specification. *)

From Stdlib Require Import ZArith String Ascii List Bool Lia.
From stdpp Require Import base decidable countable gmap strings list pretty.
Import ListNotations.

Set Warnings "-register-all".

Local Open Scope string_scope.
Local Open Scope list_scope.
Local Open Scope Z_scope.

(* ===================================================================== *)
(** ** JavaScript values that cross the HTTP boundary *)
(* ===================================================================== *)

(** What [response.json()] can produce.  Objects keep their properties in
    insertion order; [JSON.parse] yields each property name once.  Numbers of
    this API (ids, epoch milliseconds) are integers. *)
Inductive json : Type :=
  | JNull
  | JBool (b : bool)
  | JNum (n : Z)
  | JStr (s : string)
  | JArr (items : list json)
  | JObj (props : list (string * json)).

(** A thrown JavaScript exception: the constructor name and the message. *)
Record exn : Type := Exn { exn_name : string; exn_message : string }.

(** [new Error(msg)]. *)
Definition new_Error (msg : string) : exn := Exn "Error" msg.

(** The TypeError a property read on [null] raises. *)
Definition null_read_TypeError (prop : string) : exn :=
  Exn "TypeError" ("Cannot read properties of null (reading '" +:+ prop +:+ "')").

(** ToBoolean on a JSON value. *)
Definition truthy (v : json) : bool :=
  match v with
  | JNull => false
  | JBool b => b
  | JNum n => negb (n =? 0)%Z
  | JStr s => negb (String.eqb s "")
  | JArr _ => true
  | JObj _ => true
  end.

Fixpoint props_get (props : list (string * json)) (k : string) : option json :=
  match props with
  | [] => None
  | (k', v) :: rest => if String.eqb k' k then Some v else props_get rest k
  end.

(** [obj[k] = v]: overwrite in place when [k] is an own property, append a new
    property otherwise. *)
Fixpoint props_set (props : list (string * json)) (k : string) (v : json)
  : list (string * json) :=
  match props with
  | [] => [(k, v)]
  | (k', v') :: rest =>
      if String.eqb k' k then (k, v) :: rest else (k', v') :: props_set rest k v
  end.

(** [data.k] for a decoded JSON value: [Some None] is [undefined], [None] is
    the TypeError raised for [null].  Primitives and arrays have no own or
    inherited property of the names used by this program. *)
Definition js_get (data : json) (k : string) : option (option json) :=
  match data with
  | JNull => None
  | JObj props => Some (props_get props k)
  | _ => Some None
  end.

(** [data.k = v] on an object; the program assigns only after a truthy read of
    the same property, which only an object can give. *)
Definition js_set (data : json) (k : string) (v : json) : json :=
  match data with
  | JObj props => JObj (props_set props k v)
  | other => other
  end.

(* ===================================================================== *)
(** ** The host: configuration, network and Date *)
(* ===================================================================== *)

(** A settled [Response]: the status code and what [response.json()] settles
    to (a rejection when the body is not JSON). *)
Record Response : Type := mkResponse {
  status : Z;
  json_result : exn + json
}.

(** [response.ok]: the status is in the range 200-299. *)
Definition ok (r : Response) : bool := (200 <=? status r) && (status r <=? 299).

(** What [await fetch(url)] settles to: a rejection (transport failure) or a
    response. *)
Inductive FetchOutcome : Type :=
  | Rejects (e : exn)
  | Resolves (r : Response).

(** Everything the fetchers read from outside.
    - [number] is the type of JavaScript numbers and [Number_toString n] the
      text [`${n}`] of a number in a template literal;
    - [VITE_API_URL] is [import.meta.env.VITE_API_URL] ([None] when unset);
    - [network] answers a [fetch(url)];
    - [Date_new v] is what [new Date(v)] does: it throws ([inl], the
      conversion of an object to a primitive can fail), or it returns a date
      ([inr]) whose time value is [Some t], or [None] when
      [isNaN(date.getTime())];
    - [toLocaleTimeString t] is [date.toLocaleTimeString()]. *)
Record Host : Type := mkHost {
  number : Type;
  Number_toString : number -> string;
  VITE_API_URL : option string;
  network : string -> FetchOutcome;
  Date_new : json -> exn + option Z;
  toLocaleTimeString : Z -> string
}.

(* ===================================================================== *)
(** ** Async functions: an effect trace and a result or an exception *)
(* ===================================================================== *)

Inductive Effect : Type :=
  | ConsoleLog (msg : string) (args : list json)
  | ConsoleWarn (msg : string) (args : list json)
  | Fetch (url : string).

(** An async function run to completion: the effects it adds to the trace (in
    program order), and the value its promise resolves with or the exception
    it rejects with. *)
Definition Async (A : Type) : Type := list Effect -> list Effect * (exn + A).

Definition ret {A} (a : A) : Async A := fun tr => (tr, inr a).
Definition throw {A} (e : exn) : Async A := fun tr => (tr, inl e).
Definition bind {A B} (m : Async A) (k : A -> Async B) : Async B :=
  fun tr =>
    match m tr with
    | (tr', inl e) => (tr', inl e)
    | (tr', inr a) => k a tr'
    end.
Definition emit (ev : Effect) : Async unit := fun tr => (tr ++ [ev], inr tt).

Declare Scope async_scope.
Delimit Scope async_scope with async.
Notation "x ← y ; z" := (bind y (fun x => z))
  (at level 20, y at level 100, z at level 200) : async_scope.
Notation "x ;; z" := (bind x (fun _ => z))
  (at level 100, z at level 200, right associativity) : async_scope.

(** Run from an empty trace. *)
Definition run {A} (m : Async A) : list Effect * (exn + A) := m [].
Definition effects {A} (m : Async A) : list Effect := fst (run m).
Definition outcome {A} (m : Async A) : exn + A := snd (run m).

(** The urls the run asked the network for, in order. *)
Fixpoint fetched_urls (tr : list Effect) : list string :=
  match tr with
  | [] => []
  | Fetch url :: rest => url :: fetched_urls rest
  | _ :: rest => fetched_urls rest
  end.

(** The [console.warn] calls of the run. *)
Fixpoint warnings (tr : list Effect) : list (string * list json) :=
  match tr with
  | [] => []
  | ConsoleWarn msg args :: rest => (msg, args) :: warnings rest
  | _ :: rest => warnings rest
  end.

Section Fetchers.
Context (h : Host).
Local Open Scope async_scope.

Definition console_log (msg : string) (args : list json) : Async unit :=
  emit (ConsoleLog msg args).
Definition console_warn (msg : string) (args : list json) : Async unit :=
  emit (ConsoleWarn msg args).

(** [await fetch(url)]. *)
Definition await_fetch (url : string) : Async Response :=
  emit (Fetch url) ;;
  match network h url with
  | Rejects e => throw e
  | Resolves r => ret r
  end.

(** [await response.json()]. *)
Definition await_json (r : Response) : Async json :=
  match json_result r with
  | inl e => throw e
  | inr v => ret v
  end.

(** A property read in expression position. *)
Definition read_prop (data : json) (k : string) : Async (option json) :=
  match js_get data k with
  | None => throw (null_read_TypeError k)
  | Some v => ret v
  end.

(** [import.meta.env.VITE_API_URL || "http://localhost:3000"]: the default
    is taken when the variable is undefined or the empty string. *)
Definition apiUrl : string :=
  match VITE_API_URL h with
  | Some u => if String.eqb u "" then "http://localhost:3000" else u
  | None => "http://localhost:3000"
  end.

(** The timestamp block of [fetchUser] (userApi.ts, the
    [if (data.fetchedAt)] statement). *)
Definition convertFetchedAt (data : json) : Async json :=
  fetchedAt ← read_prop data "fetchedAt" ;
  match fetchedAt with
  | Some v =>
      if truthy v then
        match Date_new h v with
        | inl e => throw e
        | inr (Some t) => ret (js_set data "fetchedAt" (JStr (toLocaleTimeString h t)))
        | inr None =>
            console_warn "Invalid date received:" [v] ;;
            ret (js_set data "fetchedAt" v)
        end
      else ret data
  | None => ret data
  end.

(** [fetchUser] of userApi.ts. *)
Definition fetchUser (userId : number h) : Async json :=
  console_log ("🌐 Making API call for user " +:+ Number_toString h userId +:+ "...") [] ;;
  response ← await_fetch (apiUrl +:+ "/api/user/" +:+ Number_toString h userId) ;
  if negb (ok response) then throw (new_Error "Failed to fetch user")
  else
    data ← await_json response ;
    data' ← convertFetchedAt data ;
    console_log ("✅ Received data for user " +:+ Number_toString h userId +:+ ":") [data'] ;;
    ret data'.

(** [fetchPosts] of FetchDataReactQuery.tsx. *)
Definition fetchPosts : Async json :=
  response ← await_fetch "http://localhost:3000/api/posts" ;
  if negb (ok response) then throw (new_Error "Failed to fetch data")
  else await_json response.

(** The url [fetchUser] asks for and its trace up to the response. *)
Definition user_url (userId : number h) : string :=
  apiUrl +:+ "/api/user/" +:+ Number_toString h userId.

Definition user_prefix (userId : number h) : list Effect :=
  [ ConsoleLog ("🌐 Making API call for user " +:+ Number_toString h userId +:+ "...") [];
    Fetch (user_url userId) ].

(** The url [fetchPosts] asks for. *)
Definition posts_url : string := "http://localhost:3000/api/posts".

End Fetchers.

(* ===================================================================== *)
(** ** A reference host: UTC, 24-hour clock *)
(* ===================================================================== *)

(** The general results below hold for every [Host].  Concrete runs use this
    one.  Its numbers are the safe integers (magnitude at most 2^53 - 1),
    which a template literal prints in decimal.  The time zone is UTC and
    [toLocaleTimeString] prints [HH:mm:ss] (as the en-GB locale does).
    [new Date(v)] converts [v] to a primitive first, which throws a TypeError
    for an object that has a [toString] property of its own (a decoded JSON
    value is never callable); of strings it recognises the form
    [YYYY-MM-DDTHH:mm:ss.sssZ] that [Date.prototype.toISOString] emits and
    treats any other string as unrecognisable; a number is a time value when
    it is within 8.64e15 ms of the epoch. *)

Definition MAX_SAFE_INTEGER : Z := 9007199254740991.

Record safe_integer : Type := mk_safe {
  safe_value : Z;
  safe_bound : (Z.abs safe_value <=? MAX_SAFE_INTEGER) = true
}.

(** The safe integer [n], when [n] is one. *)
Definition safe_of_Z (n : Z) : option safe_integer :=
  match Z.abs n <=? MAX_SAFE_INTEGER as b
        return ((Z.abs n <=? MAX_SAFE_INTEGER) = b -> option safe_integer) with
  | true => fun H => Some (mk_safe n H)
  | false => fun _ => None
  end eq_refl.

(** The user id 1. *)
Definition id_1 : safe_integer := mk_safe 1 eq_refl.

Definition digit_of (c : ascii) : option Z :=
  let n := Z.of_nat (nat_of_ascii c) in
  if (48 <=? n) && (n <=? 57) then Some (n - 48) else None.

(** The decimal value of a run of digits, [None] if one is not a digit. *)
Fixpoint digits_value (acc : Z) (cs : list ascii) : option Z :=
  match cs with
  | [] => Some acc
  | c :: rest =>
      match digit_of c with
      | Some d => digits_value (acc * 10 + d) rest
      | None => None
      end
  end.

Definition is_leap (y : Z) : bool :=
  ((y mod 4 =? 0) && negb (y mod 100 =? 0)) || (y mod 400 =? 0).

Definition days_in_month (y m : Z) : Z :=
  if m =? 2 then (if is_leap y then 29 else 28)
  else if (m =? 4) || (m =? 6) || (m =? 9) || (m =? 11) then 30
  else 31.

(** Days from 1970-01-01 to the civil date [y-m-d] (proleptic Gregorian). *)
Definition days_from_civil (y m d : Z) : Z :=
  let y' := if m <=? 2 then y - 1 else y in
  let era := y' / 400 in
  let yoe := y' - era * 400 in
  let doy := (153 * (if 2 <? m then m - 3 else m + 9) + 2) / 5 + d - 1 in
  let doe := yoe * 365 + yoe / 4 - yoe / 100 + doy in
  era * 146097 + doe - 719468.

Definition ms_per_day : Z := 86400000.

(** Time value of an ISO-8601 UTC timestamp, [None] when the string is not
    of that form or a field is out of range. *)
Definition parse_iso (s : string) : option Z :=
  match list_ascii_of_string s with
  | [y1; y2; y3; y4; "-"%char; m1; m2; "-"%char; d1; d2; "T"%char;
     h1; h2; ":"%char; n1; n2; ":"%char; s1; s2; "."%char; f1; f2; f3;
     "Z"%char] =>
      match digits_value 0 [y1; y2; y3; y4], digits_value 0 [m1; m2],
            digits_value 0 [d1; d2], digits_value 0 [h1; h2],
            digits_value 0 [n1; n2], digits_value 0 [s1; s2],
            digits_value 0 [f1; f2; f3] with
      | Some y, Some m, Some d, Some hh, Some mi, Some ss, Some ms =>
          if (1 <=? m) && (m <=? 12) && (1 <=? d) && (d <=? days_in_month y m)
             && (hh <=? 23) && (mi <=? 59) && (ss <=? 59)
          then Some (days_from_civil y m d * ms_per_day
                     + hh * 3600000 + mi * 60000 + ss * 1000 + ms)
          else None
      | _, _, _, _, _, _, _ => None
      end
  | _ => None
  end.

(** The TypeError of a failed conversion to a primitive. *)
Definition to_primitive_TypeError : exn :=
  Exn "TypeError" "Cannot convert object to primitive value".

(** ToString on a decoded JSON value, as far as a date parser can tell: an
    object without a [toString] of its own prints as [[object Object]], an
    object with one cannot be converted; an array joins the texts of its
    items with commas, [null] items giving the empty text.  A number prints
    in decimal (from 1e21 on JavaScript prints an exponent; neither text is
    a timestamp this host recognises). *)
Fixpoint js_ToString (v : json) : exn + string :=
  match v with
  | JNull => inr "null"
  | JBool b => inr (if b then "true" else "false")
  | JNum n => inr (pretty n)
  | JStr s => inr s
  | JObj props =>
      match props_get props "toString" with
      | Some _ => inl to_primitive_TypeError
      | None => inr "[object Object]"
      end
  | JArr items =>
      (fix join (l : list json) : exn + string :=
         match l with
         | [] => inr ""
         | item :: rest =>
             match (match item with JNull => inr "" | _ => js_ToString item end),
                   join rest with
             | inl e, _ => inl e
             | inr _, inl e => inl e
             | inr s, inr t =>
                 inr (match rest with [] => s | _ :: _ => s +:+ "," +:+ t end)
             end
         end) items
  end.

Definition reference_Date_new (v : json) : exn + option Z :=
  match v with
  | JNull => inr (Some 0)
  | JBool b => inr (Some (if b then 1 else 0))
  | JNum n => inr (if (-8640000000000000 <=? n) && (n <=? 8640000000000000)
                   then Some n else None)
  | JStr s => inr (parse_iso s)
  | JArr _ | JObj _ =>
      match js_ToString v with
      | inl e => inl e
      | inr s => inr (parse_iso s)
      end
  end.

Definition two_digits (n : Z) : string :=
  if n <? 10 then "0" +:+ pretty n else pretty n.

Definition reference_toLocaleTimeString (t : Z) : string :=
  let ms := t mod ms_per_day in
  two_digits (ms / 3600000) +:+ ":" +:+ two_digits (ms / 60000 mod 60)
    +:+ ":" +:+ two_digits (ms / 1000 mod 60).

(** A reference host whose network gives the same answer to every url. *)
Definition reference_host (env : option string) (answer : FetchOutcome) : Host :=
  mkHost safe_integer (fun n => pretty (safe_value n)) env (fun _ => answer)
         reference_Date_new reference_toLocaleTimeString.

(* ===================================================================== *)
(** ** Components: what a render returns *)
(* ===================================================================== *)

(** A click handler, as data. *)
Inductive Handler : Type :=
  | CallRefetch                 (* [() => refetch()] *)
  | CallOnSelectUser (id : Z).  (* [() => onSelectUser(userId)] *)

(** A rendered element: tag, [className], the other props the sources set,
    and children.  A child expression that evaluates to [false], [null] or
    [undefined] renders nothing and so contributes no child. *)
Inductive vnode : Type :=
  | VText (s : string)
  | VElem (tag : string) (className : string)
          (key : option Z) (disabled : bool) (onClick : option Handler)
          (children : list vnode).

(** An element with only a class. *)
Definition elem (tag className : string) (children : list vnode) : vnode :=
  VElem tag className None false None children.

(** [{cond && <element/>}]. *)
Definition when (cond : bool) (node : vnode) : list vnode :=
  if cond then [node] else [].

(** CacheStatus.tsx. *)
Definition CacheStatus (isFetching : bool) : vnode :=
  elem "p" "text-sm mt-2"
    [ if isFetching
      then elem "span" "text-blue-400" [VText "🔄 Fetching fresh data from server..."]
      else elem "span" "text-green-400" [VText "✨ Served from cache (no network request)"] ].

(** The [User] interface of userApi.ts. *)
Record User : Type := mkUser {
  user_id : Z;
  user_name : string;
  user_email : string;
  user_fetchedAt : string
}.

(** UserInfo.tsx. *)
Definition UserInfo (user : User) : vnode :=
  elem "div" "space-y-2"
    [ elem "p" "text-gray-300"
        [elem "span" "font-semibold" [VText "Name:"]; VText " "; VText (user_name user)];
      elem "p" "text-gray-300"
        [elem "span" "font-semibold" [VText "Email:"]; VText " "; VText (user_email user)];
      elem "p" "text-gray-300"
        [elem "span" "font-semibold" [VText "ID:"]; VText " "; VText (pretty (user_id user))] ].

(** UserCard.tsx; [ChildComponentToggle] is a component defined elsewhere. *)
Definition UserCard (ChildComponentToggle : Z -> vnode)
    (user : User) (isFetching : bool) : vnode :=
  elem "div" "bg-gray-800 border border-gray-700 rounded-lg p-6"
    [ elem "h3" "text-xl font-semibold text-purple-400 mb-4"
        [VText "📋 Parent Component Data"];
      UserInfo user;
      CacheStatus isFetching;
      ChildComponentToggle (user_id user) ].

(** The [Post] interface of FetchDataReactQuery.tsx. *)
Record Post : Type := mkPost {
  post_userId : Z;
  post_id : Z;
  post_title : string;
  post_body : string
}.

(** A value held in [error]: an [Error] instance or anything else thrown. *)
Inductive Thrown : Type :=
  | ThrownError (e : exn)
  | ThrownOther (v : json).

(** The four properties the component takes from [useQuery]'s result, without
    [refetch], which the button wires to [CallRefetch]. *)
Record UseQueryResult : Type := mkUseQueryResult {
  q_data : option (list Post);
  q_isLoading : bool;
  q_error : option Thrown
}.

(** [const hasPosts = data && data.length > 0], as a condition. *)
Definition hasPosts (data : option (list Post)) : bool :=
  match data with
  | Some posts => 0 <? Z.of_nat (length posts)
  | None => false
  end.

(** One card of [data.map((post) => ...)]. *)
Definition PostCard (post : Post) : vnode :=
  VElem "div"
    "border border-gray-700 p-4 mb-2.5 rounded-lg bg-gray-800 hover:bg-gray-750 transition-colors"
    (Some (post_id post)) false None
    [ elem "h4" "mt-0 mb-2 text-emerald-400 text-xl font-medium" [VText (post_title post)];
      elem "p" "text-gray-300 mb-2" [VText (post_body post)];
      elem "small" "text-gray-500"
        [VText "Post ID: "; VText (pretty (post_id post));
         VText " | User ID: "; VText (pretty (post_userId post))] ].

(** The posts section: the count header and the per-post cards. *)
Definition PostsSection (posts : list Post) : vnode :=
  elem "div" ""
    (elem "h3" "text-2xl font-semibold mb-4"
       [VText "Posts ("; VText (pretty (Z.of_nat (length posts))); VText ")"]
     :: map PostCard posts).

(** The error box. *)
Definition ErrorBox (error : Thrown) : vnode :=
  elem "div" "text-red-400 mb-5 p-2.5 bg-red-900/30 rounded-lg border border-red-500/50"
    [ VText "Error: ";
      VText (match error with
             | ThrownError e => exn_message e
             | ThrownOther _ => "An error occurred"
             end) ].

(** ToBoolean on a value held in [error]: an [Error] instance is an object,
    hence truthy. *)
Definition thrown_truthy (error : Thrown) : bool :=
  match error with
  | ThrownError _ => true
  | ThrownOther v => truthy v
  end.

(** [{error && (<div>...</div>)}]: the box for a truthy [error].  A falsy
    [error] is itself the child: a number renders as its text, and [null],
    [false] and the empty string render nothing. *)
Definition ErrorSlot (error : option Thrown) : list vnode :=
  match error with
  | None => []
  | Some e =>
      if thrown_truthy e then [ErrorBox e]
      else match e with
           | ThrownOther (JNum n) => [VText (pretty n)]
           | _ => []
           end
  end.

(** The [return] of [FetchDataReactQuery], given what [useQuery] returned. *)
Definition FetchDataReactQuery (q : UseQueryResult) : vnode :=
  elem "div" "max-w-4xl mx-auto px-5 py-10 mt-10 border-t-2 border-emerald-500"
    ([ elem "h2" "text-3xl font-semibold mb-6"
         [VText "Fetch Data with React Query (tanstack/react-query)"];
       VElem "button"
         ("px-5 py-2.5 text-base font-medium text-white bg-emerald-500 rounded-lg mb-5 transition-colors "
            +:+ (if q_isLoading q then "cursor-not-allowed opacity-60"
                 else "hover:bg-emerald-600"))
         None (q_isLoading q) (Some CallRefetch)
         [VText (if q_isLoading q then "Loading..." else "Fetch")] ]
     ++ ErrorSlot (q_error q)
     ++ when (hasPosts (q_data q)) (PostsSection (default [] (q_data q)))).

(** The direct children of an element. *)
Definition children_of (n : vnode) : list vnode :=
  match n with
  | VElem _ _ _ _ _ cs => cs
  | VText _ => []
  end.

Definition tag_of (n : vnode) : option string :=
  match n with
  | VElem t _ _ _ _ _ => Some t
  | VText _ => None
  end.

(** How many elements with tag [t] the tree contains. *)
Fixpoint count_tag (t : string) (n : vnode) : nat :=
  match n with
  | VText _ => 0%nat
  | VElem t' _ _ _ _ cs =>
      ((if String.eqb t' t then 1 else 0) + sum_list (map (count_tag t) cs))%nat
  end.

(** The tree shows a posts section: one of the root's children is the count
    header followed by the per-post cards of some list of posts. *)
Definition renders_posts_section (tree : vnode) : Prop :=
  exists posts, In (PostsSection posts) (children_of tree).

(** UserSelector.tsx: one button per user id of [[1, 2, 3]]; [onSelectUser]
    is the parent's callback, called with the button's own id. *)
Definition UserSelector (selectedUserId : Z) : vnode :=
  elem "div" "mb-6 flex gap-3"
    (map (fun userId =>
            VElem "button"
              ("px-4 py-2 rounded-lg font-medium transition-colors "
                 +:+ (if selectedUserId =? userId then "bg-purple-600 text-white"
                      else "bg-gray-700 text-gray-300 hover:bg-gray-600"))
              (Some userId) false (Some (CallOnSelectUser userId))
              [VText "User "; VText (pretty userId)])
         [1; 2; 3]).

(** The props of an element. *)
Definition className_of (n : vnode) : string :=
  match n with
  | VElem _ c _ _ _ _ => c
  | VText _ => ""
  end.

Definition key_of (n : vnode) : option Z :=
  match n with
  | VElem _ _ k _ _ _ => k
  | VText _ => None
  end.

Definition disabled_of (n : vnode) : bool :=
  match n with
  | VElem _ _ _ d _ _ => d
  | VText _ => false
  end.

Definition onClick_of (n : vnode) : option Handler :=
  match n with
  | VElem _ _ _ _ h _ => h
  | VText _ => None
  end.

(** The elements with tag [t] anywhere in the tree, in document order. *)
Fixpoint elements_with_tag (t : string) (n : vnode) : list vnode :=
  match n with
  | VText _ => []
  | VElem t' _ _ _ _ cs =>
      (if String.eqb t' t then [n] else []) ++ flat_map (elements_with_tag t) cs
  end.

(** The button carries the classes of the selected user. *)
Definition is_highlighted (n : vnode) : bool :=
  String.eqb (className_of n)
    "px-4 py-2 rounded-lg font-medium transition-colors bg-purple-600 text-white".

(** The title element of a post's card. *)
Definition PostTitle (post : Post) : vnode :=
  elem "h4" "mt-0 mb-2 text-emerald-400 text-xl font-medium" [VText (post_title post)].

(** The property names of a decoded JSON object, in the order the object
    holds them; nothing for other values. *)
Definition js_keys (data : json) : list string :=
  match data with
  | JObj props => map fst props
  | _ => []
  end.

(* ===================================================================== *)
(** ** The cache coordination service *)
(* ===================================================================== *)

(** The sources hand caching to [useQuery]; the service behind it is not part
    of them.  This module follows sections 3 to 6 of the specification. *)
Module Coordinator.

(** Modelled from the spec: ResourceKey (section 3), an ordered sequence of
    serializable values compared structurally, e.g. [("user", 1)], [("posts",)]. *)
Inductive KeyPart : Type :=
  | KStr (s : string)
  | KNum (n : Z).

#[global] Instance KeyPart_eq_dec : EqDecision KeyPart.
Proof. solve_decision. Defined.

#[global] Instance KeyPart_countable : Countable KeyPart.
Proof.
  refine (inj_countable'
            (fun p => match p with KStr s => inl s | KNum n => inr n end)
            (fun x => match x with inl s => KStr s | inr n => KNum n end) _).
  intros [s | n]; reflexivity.
Defined.

Abbreviation ResourceKey := (list KeyPart).

(** Modelled from the spec: the status of a CacheEntry (section 3). *)
Inductive Status : Type := Idle | Fetching | Success | Error.

#[global] Instance Status_eq_dec : EqDecision Status.
Proof. solve_decision. Defined.

(** Modelled from the spec: CacheEntry (section 3).  Payloads are the values
    the fetchers resolve with, errors the exceptions they reject with. *)
Record CacheEntry : Type := mkEntry {
  key : ResourceKey;
  data : option json;
  fetchedAt : Z;
  status : Status;
  error : option exn
}.

(** Modelled from the spec: CacheStore and its operations (section 4.1), all
    total functions over the map. *)
Abbreviation CacheStore := (gmap ResourceKey CacheEntry).

Definition get (k : ResourceKey) (st : CacheStore) : option CacheEntry := st !! k.
Definition put (k : ResourceKey) (e : CacheEntry) (st : CacheStore) : CacheStore :=
  <[k := e]> st.
Definition delete (k : ResourceKey) (st : CacheStore) : CacheStore :=
  base.delete k st.
Definition clear (st : CacheStore) : CacheStore := ∅.

(** Modelled from the spec: a caller of [request] (section 4.2), by identity. *)
Definition Caller : Type := nat.

(** Modelled from the spec: InFlightRegistry (section 3): per key, the single
    pending operation, here the callers attached to its completion. *)
Abbreviation InFlightRegistry := (gmap ResourceKey (list Caller)).

(** Modelled from the spec: what QueryCoordinator owns (sections 3 and 4.2),
    together with a record of what it did to the outside: the
    RemoteDataSource.fetch invocations, the settlements it has processed and
    the notifications it delivered, each in order. *)
Record State : Type := mkState {
  store : CacheStore;
  inflight : InFlightRegistry;
  fetches : list ResourceKey;
  settlements : list ResourceKey;
  delivered : list (Caller * CacheEntry)
}.

Definition init : State := mkState ∅ ∅ [] [] [].

(** Modelled from the spec: the options of [request] (section 4.2). *)
Record Options : Type := mkOptions {
  enabled : bool;
  forceRefetch : bool
}.

(** Modelled from the spec: the Result of [request] (section 4.2): an entry at
    once, or nothing yet because the caller now waits for the pending
    operation to settle and is notified then. *)
Inductive Result : Type :=
  | Returned (e : CacheEntry)
  | Pending.

(** Modelled from the spec: the empty/Idle entry of step 1. *)
Definition idle_entry (k : ResourceKey) : CacheEntry := mkEntry k None 0 Idle None.

Section WithPolicy.

(** The specification leaves open when a cached value is still fresh (no TTL,
    section 9); [isFresh now e] is that policy. *)
Context (isFresh : Z -> CacheEntry -> bool).

(** Modelled from the spec: a cache hit (section 2 data flow, glossary): a
    successfully fetched entry that the policy considers fresh. *)
Definition cacheHit (now : Z) (e : CacheEntry) : bool :=
  bool_decide (status e = Success) && isFresh now e.

(** Modelled from the spec: step 3 of [request]: mark the entry Fetching,
    keeping the other fields of an existing entry, register a handle and
    invoke RemoteDataSource.fetch. *)
Definition start_fetch (caller : Caller) (k : ResourceKey) (s : State) : State :=
  let e := match get k (store s) with
           | Some e0 => mkEntry (key e0) (data e0) (fetchedAt e0) Fetching (error e0)
           | None => mkEntry k None 0 Fetching None
           end in
  mkState (put k e (store s)) (<[k := [caller]]> (inflight s))
          (fetches s ++ [k]) (settlements s) (delivered s).

(** Modelled from the spec: [request(key, options)] (section 4.2, steps 1 to
    3, with the cache-hit short-circuit of section 2 and the manual-refetch
    rule: a forced refetch attaches to a fetch already in flight). *)
Definition request (now : Z) (caller : Caller) (k : ResourceKey) (opts : Options)
    (s : State) : State * Result :=
  if negb (enabled opts) && negb (forceRefetch opts) then
    (s, Returned (default (idle_entry k) (get k (store s))))
  else
    match inflight s !! k with
    | Some callers =>
        (mkState (store s) (<[k := callers ++ [caller]]> (inflight s))
                 (fetches s) (settlements s) (delivered s),
         Pending)
    | None =>
        match get k (store s) with
        | Some e =>
            if negb (forceRefetch opts) && cacheHit now e then (s, Returned e)
            else (start_fetch caller k s, Pending)
        | None => (start_fetch caller k s, Pending)
        end
    end.

(** Modelled from the spec: steps 4 and 5: the entry written when the fetch
    for [k] settles with [result] at time [now]. *)
Definition settled_entry (now : Z) (k : ResourceKey) (result : exn + json)
    (before : option CacheEntry) : CacheEntry :=
  match result with
  | inr payload => mkEntry k (Some payload) now Success None
  | inl failure =>
      mkEntry k (before ≫= data) (default 0 (fetchedAt <$> before)) Error (Some failure)
  end.

(** Modelled from the spec: steps 4 to 6: write the entry, remove the
    in-flight handle, notify every attached caller with that entry.  Without
    a handle for [k] there is no fetch to settle. *)
Definition settle (now : Z) (k : ResourceKey) (result : exn + json) (s : State)
  : State :=
  match inflight s !! k with
  | Some callers =>
      let e := settled_entry now k result (get k (store s)) in
      mkState (put k e (store s)) (base.delete k (inflight s))
              (fetches s) (settlements s ++ [k])
              (delivered s ++ map (fun c => (c, e)) callers)
  | None => s
  end.

(** Modelled from the spec: the scheduling model (section 5): one logical
    thread, suspension only at the network boundary.  What happens to the
    coordinator is a sequence of events, each handled to completion: a call
    of [request], or the settlement of a fetch. *)
Inductive Event : Type :=
  | Request (now : Z) (caller : Caller) (k : ResourceKey) (opts : Options)
  | Settle (now : Z) (k : ResourceKey) (result : exn + json).

Definition step (ev : Event) (s : State) : State :=
  match ev with
  | Request now caller k opts => fst (request now caller k opts s)
  | Settle now k result => settle now k result s
  end.

Definition run_events (evs : list Event) (s : State) : State :=
  fold_left (fun acc ev => step ev acc) evs s.

End WithPolicy.

Definition event_key (ev : Event) : ResourceKey :=
  match ev with
  | Request _ _ k _ => k
  | Settle _ k _ => k
  end.

(** How often [k] occurs in a log. *)
Definition count (k : ResourceKey) (log : list ResourceKey) : nat :=
  length (filter (fun x => x = k) log).

(** Fetches for [k] that were invoked and have not settled yet. *)
Definition outstanding (s : State) (k : ResourceKey) : Z :=
  Z.of_nat (count k (fetches s)) - Z.of_nat (count k (settlements s)).

(** The notifications delivered for key [k]. *)
Definition deliveries (k : ResourceKey) (s : State) : list (Caller * CacheEntry) :=
  filter (fun d => key (snd d) = k) (delivered s).




(** [ev] is not a successful settlement for [k]. *)
Definition not_success_for (k : ResourceKey) (ev : Event) : Prop :=
  match ev with
  | Settle _ k' (inr _) => k' <> k
  | _ => True
  end.

(** What holds of key [k] in every state the coordinator can reach: a handle
    goes with a Fetching entry and with exactly one unsettled fetch, no
    handle goes with no Fetching entry and no unsettled fetch, and entries
    sit under their own key. *)
Definition consistent_at (k : ResourceKey) (s : State) : Prop :=
  (forall e, store s !! k = Some e -> key e = k)
  /\ match inflight s !! k with
     | Some _ =>
         (exists e, store s !! k = Some e /\ status e = Fetching)
         /\ outstanding s k = 1
     | None =>
         (forall e, store s !! k = Some e -> status e <> Fetching)
         /\ outstanding s k = 0
     end.

(** Modelled from the spec: the invariant of CacheEntry (section 3):
    status=Success implies data present and error absent; status=Error
    implies error present. *)
Definition entry_ok (e : CacheEntry) : Prop :=
  (status e = Success -> is_Some (data e) /\ error e = None)
  /\ (status e = Error -> is_Some (error e)).

(** Modelled from the spec: RemoteDataSource (section 4.3): one network call
    per logical resource, user-by-id and posts-list, made by the two fetchers
    of the sources; what the call settles to is what [Settle] carries.
    [of_key] reads the id of a key as a number of the host. *)
Definition RemoteDataSource_fetch (h : Host) (of_key : Z -> option (number h))
    (k : ResourceKey) : option (exn + json) :=
  match k with
  | [KStr resource] =>
      if String.eqb resource "posts" then Some (outcome (fetchPosts h)) else None
  | [KStr resource; KNum id] =>
      if String.eqb resource "user"
      then (fun userId => outcome (fetchUser h userId)) <$> of_key id
      else None
  | _ => None
  end.

(** Modelled from the spec: the Presentation Adapter (section 6): what the
    display layer sees of one query. *)
Record View : Type := mkView {
  view_data : option json;
  isFetching : bool;
  view_error : option exn
}.

(** Modelled from the spec: [isFetching] is true exactly while the status is
    Fetching for the key (section 6); a key without an entry shows as the
    empty Idle entry. *)
Definition observe (k : ResourceKey) (s : State) : View :=
  let e := default (idle_entry k) (get k (store s)) in
  mkView (data e) (bool_decide (status e = Fetching)) (error e).

(** The query of FetchDataReactQuery.tsx: [queryKey: ["posts"]],
    [enabled: false]; mounting asks without forcing, the button's [refetch()]
    forces. *)
Definition posts_key : ResourceKey := [KStr "posts"].
Definition on_refetch : Options := mkOptions false true.

(** Sample runs. *)

(** The policy of the library's defaults: nothing cached counts as fresh. *)
Definition always_stale : Z -> CacheEntry -> bool := fun _ _ => false.

Definition plain_request : Options := mkOptions true false.


Definition user_key (id : Z) : ResourceKey := [KStr "user"; KNum id].

(** A host whose server answers 200 with the record of user 1. *)
Definition user_1_host : Host :=
  reference_host None
    (Resolves (mkResponse 200
       (inr (JObj [("id", JNum 1); ("name", JStr "Ada");
                   ("email", JStr "ada@example.com");
                   ("fetchedAt", JStr "2024-01-15T14:30:45.000Z")])))).

(** A host whose server answers 500. *)
Definition failing_host : Host :=
  reference_host None (Resolves (mkResponse 500 (inr JNull))).

(** A state with the posts fetch in flight for caller 1. *)
Definition posts_in_flight : State :=
  fst (request always_stale 0 1%nat posts_key plain_request init).

End Coordinator.

(* ===================================================================== *)
(** * Results *)
(* ===================================================================== *)

(** ** Properties of objects *)

Lemma props_get_set_same props k v : props_get (props_set props k v) k = Some v.
Proof.
  induction props as [| [k' v'] rest IH]; simpl.
  - by rewrite String.eqb_refl.
  - destruct (String.eqb k' k) eqn:E; simpl.
    + by rewrite String.eqb_refl.
    + by rewrite E.
Qed.

Lemma props_get_set_other props k v k' :
  k' <> k -> props_get (props_set props k v) k' = props_get props k'.
Proof.
  intros Hne. induction props as [| [k0 v0] rest IH]; simpl.
  - destruct (String.eqb k k') eqn:E; [| done].
    apply String.eqb_eq in E. congruence.
  - destruct (String.eqb k0 k) eqn:E; simpl.
    + apply String.eqb_eq in E. subst k0.
      destruct (String.eqb k k') eqn:E'; [| done].
      apply String.eqb_eq in E'. congruence.
    + by rewrite IH.
Qed.

(** [data.k = data.k] changes nothing. *)
Lemma props_set_id props k v : props_get props k = Some v -> props_set props k v = props.
Proof.
  induction props as [| [k' v'] rest IH]; simpl; [done |].
  destruct (String.eqb k' k) eqn:E.
  - apply String.eqb_eq in E. intros [= ->]. by subst.
  - intros H. by rewrite IH.
Qed.

Lemma js_set_id data k v : js_get data k = Some (Some v) -> js_set data k v = data.
Proof.
  destruct data; simpl; try done.
  intros [= H]. by rewrite props_set_id.
Qed.

Lemma js_get_set_other data k v k' :
  k' <> k -> js_get (js_set data k v) k' = js_get data k'.
Proof.
  intros Hne. destruct data; simpl; try done.
  by rewrite props_get_set_other.
Qed.

Lemma js_get_set_same data k v w :
  js_get data k = Some (Some w) -> js_get (js_set data k v) k = Some (Some v).
Proof.
  destruct data; simpl; try done.
  intros _. by rewrite props_get_set_same.
Qed.

(** Only [null] makes a property read throw. *)
Lemma js_get_None data k : js_get data k = None <-> data = JNull.
Proof. destruct data; simpl; split; congruence. Qed.

(** ** The fetchers, step by step *)

(** Unfold the plumbing of [Async] and reduce, leaving [ok], string
    concatenation and number printing alone. *)
Ltac run_async :=
  unfold bind, console_log, console_warn, emit, await_fetch, await_json,
    read_prop, ret, throw;
  cbn -[ok append pretty convertFetchedAt].

Section FetcherFacts.
Context (h : Host).

Lemma fetchUser_rejected userId e :
  network h (user_url h userId) = Rejects e ->
  run (fetchUser h userId) = (user_prefix h userId, inl e).
Proof.
  intros Hn. unfold run, fetchUser. run_async. fold (user_url h userId).
  rewrite Hn. by run_async.
Qed.

Lemma fetchUser_not_ok userId r :
  network h (user_url h userId) = Resolves r -> ok r = false ->
  run (fetchUser h userId)
  = (user_prefix h userId, inl (new_Error "Failed to fetch user")).
Proof.
  intros Hn Hok. unfold run, fetchUser. run_async. fold (user_url h userId).
  rewrite Hn. run_async. rewrite Hok. by run_async.
Qed.

Lemma fetchUser_undecodable userId r e :
  network h (user_url h userId) = Resolves r -> ok r = true ->
  json_result r = inl e ->
  run (fetchUser h userId) = (user_prefix h userId, inl e).
Proof.
  intros Hn Hok Hj. unfold run, fetchUser. run_async. fold (user_url h userId).
  rewrite Hn. run_async. rewrite Hok. run_async. rewrite Hj. by run_async.
Qed.

Lemma fetchUser_decoded userId r body :
  network h (user_url h userId) = Resolves r -> ok r = true ->
  json_result r = inr body ->
  run (fetchUser h userId)
  = match convertFetchedAt h body (user_prefix h userId) with
    | (tr, inl e) => (tr, inl e)
    | (tr, inr data') =>
        (tr ++ [ConsoleLog ("✅ Received data for user " +:+ Number_toString h userId +:+ ":")
                  [data']],
         inr data')
    end.
Proof.
  intros Hn Hok Hj. unfold run, fetchUser. run_async. fold (user_url h userId).
  rewrite Hn. run_async. rewrite Hok. run_async. rewrite Hj. run_async.
  fold (user_prefix h userId).
  destruct (convertFetchedAt h body (user_prefix h userId)) as [tr [e | d]]; done.
Qed.

(** The four ways through the timestamp block. *)
Lemma convert_null tr :
  convertFetchedAt h JNull tr = (tr, inl (null_read_TypeError "fetchedAt")).
Proof. reflexivity. Qed.

Lemma convert_absent data tr :
  js_get data "fetchedAt" = Some None -> convertFetchedAt h data tr = (tr, inr data).
Proof.
  intros Hg. unfold convertFetchedAt, bind, read_prop. by rewrite Hg.
Qed.

Lemma convert_falsy data v tr :
  js_get data "fetchedAt" = Some (Some v) -> truthy v = false ->
  convertFetchedAt h data tr = (tr, inr data).
Proof.
  intros Hg Ht. unfold convertFetchedAt, bind, read_prop. rewrite Hg. simpl.
  by rewrite Ht.
Qed.

Lemma convert_valid data v t tr :
  js_get data "fetchedAt" = Some (Some v) -> truthy v = true ->
  Date_new h v = inr (Some t) ->
  convertFetchedAt h data tr
  = (tr, inr (js_set data "fetchedAt" (JStr (toLocaleTimeString h t)))).
Proof.
  intros Hg Ht Hd. unfold convertFetchedAt, bind, read_prop. rewrite Hg. simpl.
  by rewrite Ht, Hd.
Qed.

Lemma convert_throws data v e tr :
  js_get data "fetchedAt" = Some (Some v) -> truthy v = true ->
  Date_new h v = inl e ->
  convertFetchedAt h data tr = (tr, inl e).
Proof.
  intros Hg Ht Hd. unfold convertFetchedAt, bind, read_prop. rewrite Hg. simpl.
  by rewrite Ht, Hd.
Qed.

Lemma convert_invalid data v tr :
  js_get data "fetchedAt" = Some (Some v) -> truthy v = true ->
  Date_new h v = inr None ->
  convertFetchedAt h data tr
  = (tr ++ [ConsoleWarn "Invalid date received:" [v]], inr data).
Proof.
  intros Hg Ht Hd. unfold convertFetchedAt, bind, read_prop. rewrite Hg. simpl.
  rewrite Ht, Hd. unfold console_warn, emit, bind, ret. simpl.
  by rewrite (js_set_id _ _ _ Hg).
Qed.

(** [fetchPosts] always asks for the same url. *)
Lemma fetchPosts_run :
  run (fetchPosts h)
  = ([Fetch posts_url],
     match network h posts_url with
     | Rejects e => inl e
     | Resolves r =>
         if ok r then json_result r else inl (new_Error "Failed to fetch data")
     end).
Proof.
  unfold run, fetchPosts, posts_url. run_async.
  destruct (network h _) as [e | r]; run_async; [done |].
  destruct (ok r); run_async; [| done].
  by destruct (json_result r).
Qed.

End FetcherFacts.

(** ** What the fetchers ask for *)

Lemma fetched_urls_app tr1 tr2 :
  fetched_urls (tr1 ++ tr2) = fetched_urls tr1 ++ fetched_urls tr2.
Proof.
  induction tr1 as [| ev rest IH]; simpl; [done |].
  destruct ev; simpl; by rewrite ?IH.
Qed.

Lemma warnings_app tr1 tr2 : warnings (tr1 ++ tr2) = warnings tr1 ++ warnings tr2.
Proof.
  induction tr1 as [| ev rest IH]; simpl; [done |].
  destruct ev; simpl; by rewrite ?IH.
Qed.

(** The timestamp block talks to the console only. *)
Lemma convert_trace h data tr :
  exists extra,
    fst (convertFetchedAt h data tr) = tr ++ extra /\ fetched_urls extra = [].
Proof.
  unfold convertFetchedAt. run_async.
  destruct (js_get data "fetchedAt") as [[v |] |]; run_async;
    try (exists []; by rewrite app_nil_r).
  destruct (truthy v); run_async; try (exists []; by rewrite app_nil_r).
  destruct (Date_new h v) as [e | [t |]]; run_async;
    try (exists []; by rewrite app_nil_r).
  by exists [ConsoleWarn "Invalid date received:" [v]].
Qed.

(** [fetchUser] makes exactly one request, to the configured base url. *)
Lemma fetchUser_url h userId :
  fetched_urls (effects (fetchUser h userId)) = [user_url h userId].
Proof.
  unfold effects.
  destruct (network h (user_url h userId)) as [e | r] eqn:Hn.
  { by rewrite (fetchUser_rejected h userId e Hn). }
  destruct (ok r) eqn:Hok.
  2: { by rewrite (fetchUser_not_ok h userId r Hn Hok). }
  destruct (json_result r) as [e | body] eqn:Hj.
  { by rewrite (fetchUser_undecodable h userId r e Hn Hok Hj). }
  rewrite (fetchUser_decoded h userId r body Hn Hok Hj).
  destruct (convert_trace h body (user_prefix h userId)) as (extra & Htr & Hex).
  destruct (convertFetchedAt h body (user_prefix h userId)) as [tr [e | d]];
    simpl in Htr; subst tr; cbn [fst];
    rewrite ?fetched_urls_app; cbn [fetched_urls app]; by rewrite Hex.
Qed.

Lemma apiUrl_unset h : VITE_API_URL h = None -> apiUrl h = "http://localhost:3000".
Proof. intros H. unfold apiUrl. by rewrite H. Qed.

Lemma apiUrl_set h u : VITE_API_URL h = Some u -> u <> "" -> apiUrl h = u.
Proof.
  intros H Hne. unfold apiUrl. rewrite H.
  destruct (String.eqb u "") eqn:E; [| done].
  apply String.eqb_eq in E. congruence.
Qed.

(** [fetchPosts] makes exactly one request, and to the same url whatever the
    configuration says. *)
Lemma fetchPosts_url h : fetched_urls (effects (fetchPosts h)) = [posts_url].
Proof. unfold effects. by rewrite fetchPosts_run. Qed.

(** C5 (code defect).  Every request should take its base url from the
    configuration value, with a fixed default when unset.  [fetchUser] does;
    [fetchPosts] does not: with [VITE_API_URL] set to
    [https://api.example.com], the user request goes to the configured base
    and the posts request still goes to [http://localhost:3000]. *)
Theorem C5_fetchPosts_ignores_configured_base_url :
  let h := reference_host (Some "https://api.example.com")
             (Resolves (mkResponse 200 (inr (JArr [])))) in
  apiUrl h = "https://api.example.com"
  /\ fetched_urls (effects (fetchUser h id_1)) = ["https://api.example.com/api/user/1"]
  /\ fetched_urls (effects (fetchPosts h)) = ["http://localhost:3000/api/posts"].
Proof. vm_compute. done. Qed.

(** ** Throwing and returning *)

(** C4, as stated, fails: a 2xx response does not guarantee a return.  A 2xx
    response whose body is not JSON makes [fetchPosts] throw, a 2xx response
    whose body is [null] makes [fetchUser] throw, and so does a 2xx record
    whose [fetchedAt] is an object that [new Date] cannot convert. *)
Lemma C4_counterexample :
  ~ (forall h r, network h posts_url = Resolves r -> ok r = true ->
       exists body, outcome (fetchPosts h) = inr body)
  /\ ~ (forall h userId r, network h (user_url h userId) = Resolves r ->
         ok r = true -> exists body, outcome (fetchUser h userId) = inr body)
  /\ ~ (forall h userId r body, network h (user_url h userId) = Resolves r ->
         ok r = true -> json_result r = inr body -> body <> JNull ->
         exists data', outcome (fetchUser h userId) = inr data').
Proof.
  split; [| split].
  - intros H.
    pose (r := mkResponse 200 (inl (Exn "SyntaxError" "Unexpected token '<'"))).
    destruct (H (reference_host None (Resolves r)) r eq_refl eq_refl) as [body Hb].
    vm_compute in Hb. discriminate Hb.
  - intros H.
    pose (r := mkResponse 200 (inr JNull)).
    destruct (H (reference_host None (Resolves r)) id_1 r eq_refl eq_refl) as [body Hb].
    vm_compute in Hb. discriminate Hb.
  - intros H.
    pose (body := JObj [("id", JNum 1); ("name", JStr "Ada");
                        ("email", JStr "ada@example.com");
                        ("fetchedAt", JObj [("toString", JNum 0)])]).
    pose (r := mkResponse 200 (inr body)).
    destruct (H (reference_host None (Resolves r)) id_1 r body eq_refl eq_refl eq_refl)
      as [data' Hd]; [discriminate |].
    vm_compute in Hd. discriminate Hd.
Qed.

(** C4 (amended).  Given an HTTP response, each fetcher throws its own
    [Error("Failed to fetch ...")] when the response is non-2xx, whatever the
    body.  A 2xx response whose body does not decode makes either fetcher
    reject with the decoder's error, and a 2xx [null] body makes [fetchUser]
    throw a TypeError.  When the body decodes as JSON (for [fetchUser]: to a
    value other than [null] whose [fetchedAt], if truthy, [new Date] accepts
    without throwing), the fetcher throws if and only if the response is
    non-2xx, and on a 2xx response [fetchPosts] returns the decoded body and
    [fetchUser] returns the decoded record, either as decoded or after its
    assignment to [fetchedAt]. *)
Theorem C4_fetchers_throw_iff_not_ok :
  (forall h userId r,
     network h (user_url h userId) = Resolves r ->
     (ok r = false ->
      outcome (fetchUser h userId) = inl (new_Error "Failed to fetch user"))
     /\ (forall e, ok r = true -> json_result r = inl e ->
           outcome (fetchUser h userId) = inl e)
     /\ (ok r = true -> json_result r = inr JNull ->
         outcome (fetchUser h userId) = inl (null_read_TypeError "fetchedAt"))
     /\ (forall body,
           json_result r = inr body -> body <> JNull ->
           (forall v, js_get body "fetchedAt" = Some (Some v) -> truthy v = true ->
                      exists d, Date_new h v = inr d) ->
           ((exists e, outcome (fetchUser h userId) = inl e) <-> ok r = false)
           /\ (ok r = true ->
               exists data', outcome (fetchUser h userId) = inr data'
                 /\ (data' = body \/ exists v, data' = js_set body "fetchedAt" v))))
  /\ (forall h r,
        network h posts_url = Resolves r ->
        (ok r = false ->
         outcome (fetchPosts h) = inl (new_Error "Failed to fetch data"))
        /\ (forall e, ok r = true -> json_result r = inl e ->
              outcome (fetchPosts h) = inl e)
        /\ (forall body,
              json_result r = inr body ->
              ((exists e, outcome (fetchPosts h) = inl e) <-> ok r = false)
              /\ (ok r = true -> outcome (fetchPosts h) = inr body))).
Proof.
  split.
  - intros h userId r Hn.
    assert (ok r = false ->
            outcome (fetchUser h userId) = inl (new_Error "Failed to fetch user"))
      as Hnot_ok.
    { intros Hok. unfold outcome. by rewrite (fetchUser_not_ok h userId r Hn Hok). }
    split; [exact Hnot_ok |]. split; [| split].
    + intros e Hok Hj. unfold outcome.
      by rewrite (fetchUser_undecodable h userId r e Hn Hok Hj).
    + intros Hok Hj. unfold outcome.
      by rewrite (fetchUser_decoded h userId r JNull Hn Hok Hj), convert_null.
    + intros body Hj Hnull Hdate.
      assert (ok r = true ->
              exists data', outcome (fetchUser h userId) = inr data'
                /\ (data' = body \/ exists v, data' = js_set body "fetchedAt" v))
        as Hok_case.
      { intros Hok. unfold outcome.
        rewrite (fetchUser_decoded h userId r body Hn Hok Hj).
        destruct (js_get body "fetchedAt") as [[v |] |] eqn:Hg.
        - destruct (truthy v) eqn:Ht.
          + destruct (Hdate v eq_refl Ht) as [[t |] Hd].
            * rewrite (convert_valid h _ _ t _ Hg Ht Hd). simpl. eauto.
            * rewrite (convert_invalid h _ _ _ Hg Ht Hd). simpl. eauto.
          + rewrite (convert_falsy h _ _ _ Hg Ht). simpl. eauto.
        - rewrite (convert_absent h _ _ Hg). simpl. eauto.
        - apply js_get_None in Hg. contradiction. }
      split; [| exact Hok_case]. split.
      * intros [e He]. destruct (ok r) eqn:Hok; [| done].
        destruct (Hok_case eq_refl) as (d & Hd & _). congruence.
      * intros Hok. eexists. by apply Hnot_ok.
  - intros h r Hn. unfold outcome. rewrite fetchPosts_run, Hn. cbn [snd].
    split; [| split].
    + by intros ->.
    + by intros e -> ->.
    + intros body Hj. split; [split |].
      * intros [e He]. destruct (ok r); [| done]. congruence.
      * intros ->. eauto.
      * by intros ->.
Qed.

Lemma C4_fetchers_throw_iff_not_ok_witness :
  let body := JObj [("id", JNum 1); ("name", JStr "Ada");
                    ("email", JStr "ada@example.com");
                    ("fetchedAt", JStr "2024-01-15T14:30:45.000Z")] in
  let r := mkResponse 200 (inr body) in
  let h := reference_host None (Resolves r) in
  (((exists e, outcome (fetchUser h id_1) = inl e) <-> ok r = false)
   /\ (ok r = true ->
       exists data', outcome (fetchUser h id_1) = inr data'
         /\ (data' = body \/ exists v, data' = js_set body "fetchedAt" v)))
  /\ (((exists e, outcome (fetchPosts h) = inl e) <-> ok r = false)
      /\ (ok r = true -> outcome (fetchPosts h) = inr body)).
Proof.
  intros body r h. split.
  - apply (proj1 C4_fetchers_throw_iff_not_ok h id_1 r eq_refl); [reflexivity | discriminate |].
    intros v [= <-] _. by eexists.
  - apply (proj2 C4_fetchers_throw_iff_not_ok h r eq_refl). reflexivity.
Defined.

(** ** The payload and its timestamp *)

(** A successful [fetchUser] saw a 2xx response with a decodable, non-null
    body. *)
Lemma fetchUser_success_inv h userId data' :
  outcome (fetchUser h userId) = inr data' ->
  exists r body,
    network h (user_url h userId) = Resolves r /\ ok r = true
    /\ json_result r = inr body /\ body <> JNull
    /\ snd (convertFetchedAt h body (user_prefix h userId)) = inr data'.
Proof.
  unfold outcome. intros Hout.
  destruct (network h (user_url h userId)) as [e | r] eqn:Hn.
  { by rewrite (fetchUser_rejected h userId e Hn) in Hout. }
  destruct (ok r) eqn:Hok.
  2: { by rewrite (fetchUser_not_ok h userId r Hn Hok) in Hout. }
  destruct (json_result r) as [e | body] eqn:Hj.
  { by rewrite (fetchUser_undecodable h userId r e Hn Hok Hj) in Hout. }
  rewrite (fetchUser_decoded h userId r body Hn Hok Hj) in Hout.
  exists r, body. repeat split; try done.
  - intros ->. by rewrite convert_null in Hout.
  - destruct (convertFetchedAt h body (user_prefix h userId)) as [tr [e | d]]; done.
Qed.

(** C6, as stated, fails: the server sends an ISO-8601 [fetchedAt] and
    [fetchUser] returns a record that is not the payload. *)
Lemma C6_counterexample :
  ~ (forall h userId r body,
       network h (user_url h userId) = Resolves r -> ok r = true ->
       json_result r = inr body ->
       outcome (fetchUser h userId) = inr body).
Proof.
  intros H.
  pose (body := JObj [("id", JNum 1); ("name", JStr "Ada");
                      ("email", JStr "ada@example.com");
                      ("fetchedAt", JStr "2024-01-15T14:30:45.000Z")]).
  pose (r := mkResponse 200 (inr body)).
  specialize (H (reference_host None (Resolves r)) id_1 r body eq_refl eq_refl eq_refl).
  vm_compute in H. discriminate H.
Qed.

(** C6 (amended).  A successful [fetchPosts] returns the server's payload
    raw.  A successful [fetchUser] returns the server's record with every
    property other than [fetchedAt] as sent; when the record's [fetchedAt] is
    truthy and parses as a valid date it is replaced by the date's
    [toLocaleTimeString()], and in every other case the record is returned
    exactly as sent.  Each holds whatever the other fetcher does. *)
Theorem C6_payload_raw_except_converted_timestamp :
  (forall h posts,
     outcome (fetchPosts h) = inr posts ->
     exists r, network h posts_url = Resolves r /\ ok r = true
               /\ json_result r = inr posts)
  /\ (forall h userId user,
        outcome (fetchUser h userId) = inr user ->
        exists r body,
          network h (user_url h userId) = Resolves r /\ ok r = true
          /\ json_result r = inr body
          /\ (forall k, k <> "fetchedAt" -> js_get user k = js_get body k)
          /\ (forall v t,
                js_get body "fetchedAt" = Some (Some v) -> truthy v = true ->
                Date_new h v = inr (Some t) ->
                user = js_set body "fetchedAt" (JStr (toLocaleTimeString h t))
                /\ js_get user "fetchedAt"
                   = Some (Some (JStr (toLocaleTimeString h t))))
          /\ (~ (exists v t, js_get body "fetchedAt" = Some (Some v)
                             /\ truthy v = true /\ Date_new h v = inr (Some t)) ->
              user = body)).
Proof.
  split.
  - intros h posts Hposts.
    unfold outcome in Hposts. rewrite fetchPosts_run in Hposts. simpl in Hposts.
    destruct (network h posts_url) as [e | r]; [done |].
    exists r. destruct (ok r); [| done]. done.
  - intros h userId user Huser.
    destruct (fetchUser_success_inv h userId user Huser)
      as (r & body & Hn & Hok & Hj & Hnull & Hconv).
    exists r, body. split; [done |]. split; [done |]. split; [done |].
    destruct (js_get body "fetchedAt") as [[v |] |] eqn:Hg.
    + destruct (truthy v) eqn:Ht.
      * destruct (Date_new h v) as [e | [t |]] eqn:Hd.
        -- by rewrite (convert_throws h _ _ e _ Hg Ht Hd) in Hconv.
        -- rewrite (convert_valid h _ _ t _ Hg Ht Hd) in Hconv.
           injection Hconv as <-. split; [| split].
           ++ intros k Hk. by apply js_get_set_other.
           ++ intros v' t' [= <-] _ Hd'. rewrite Hd in Hd'. injection Hd' as <-.
              split; [done |]. by apply (js_get_set_same _ _ _ v).
           ++ intros Hno. exfalso. apply Hno. eauto.
        -- rewrite (convert_invalid h _ _ _ Hg Ht Hd) in Hconv.
           injection Hconv as <-. split; [done |]. split; [| done].
           intros v' t' [= <-] _ Hd'. congruence.
      * rewrite (convert_falsy h _ _ _ Hg Ht) in Hconv.
        injection Hconv as <-. split; [done |]. split; [| done].
        intros v' t' [= <-] Ht'. congruence.
    + rewrite (convert_absent h _ _ Hg) in Hconv.
      injection Hconv as <-. split; [done |]. split; [| done].
      intros v' t' [=].
    + apply js_get_None in Hg. contradiction.
Qed.

Lemma C6_payload_raw_except_converted_timestamp_witness :
  let body := JObj [("id", JNum 1); ("name", JStr "Ada");
                    ("email", JStr "ada@example.com");
                    ("fetchedAt", JStr "2024-01-15T14:30:45.000Z")] in
  let user := JObj [("id", JNum 1); ("name", JStr "Ada");
                    ("email", JStr "ada@example.com");
                    ("fetchedAt", JStr "14:30:45")] in
  let h := reference_host None (Resolves (mkResponse 200 (inr body))) in
  (exists r, network h posts_url = Resolves r /\ ok r = true
             /\ json_result r = inr body)
  /\ exists r body0,
       network h (user_url h id_1) = Resolves r /\ ok r = true
       /\ json_result r = inr body0
       /\ (forall k, k <> "fetchedAt" -> js_get user k = js_get body0 k)
       /\ (forall v t,
             js_get body0 "fetchedAt" = Some (Some v) -> truthy v = true ->
             Date_new h v = inr (Some t) ->
             user = js_set body0 "fetchedAt" (JStr (toLocaleTimeString h t))
             /\ js_get user "fetchedAt" = Some (Some (JStr (toLocaleTimeString h t))))
       /\ (~ (exists v t, js_get body0 "fetchedAt" = Some (Some v)
                          /\ truthy v = true /\ Date_new h v = inr (Some t)) ->
           user = body0).
Proof.
  intros body user h. split.
  - apply (proj1 C6_payload_raw_except_converted_timestamp h body). reflexivity.
  - apply (proj2 C6_payload_raw_except_converted_timestamp h id_1 user). reflexivity.
Defined.

(** C7, as stated, fails twice.  An empty [fetchedAt] does not parse as a
    date, and [fetchUser] returns the record without logging any warning.
    A [fetchedAt] that is an object with a [toString] property of its own
    does not parse as a date either, and there [new Date] throws, so the
    request fails. *)
Lemma C7_counterexample :
  ~ (forall h userId r body v,
       network h (user_url h userId) = Resolves r -> ok r = true ->
       json_result r = inr body ->
       js_get body "fetchedAt" = Some (Some v) ->
       (forall t, Date_new h v <> inr (Some t)) ->
       outcome (fetchUser h userId) = inr body
       /\ warnings (effects (fetchUser h userId)) <> [])
  /\ ~ (forall h userId r body v,
          network h (user_url h userId) = Resolves r -> ok r = true ->
          json_result r = inr body ->
          js_get body "fetchedAt" = Some (Some v) ->
          (forall t, Date_new h v <> inr (Some t)) ->
          exists data', outcome (fetchUser h userId) = inr data').
Proof.
  split.
  - intros H.
    pose (body := JObj [("id", JNum 1); ("name", JStr "Ada");
                        ("email", JStr "ada@example.com"); ("fetchedAt", JStr "")]).
    pose (r := mkResponse 200 (inr body)).
    destruct (H (reference_host None (Resolves r)) id_1 r body (JStr "")
                eq_refl eq_refl eq_refl eq_refl) as [_ Hwarn]; [discriminate |].
    apply Hwarn. vm_compute. reflexivity.
  - intros H.
    pose (stamp := JObj [("toString", JNum 0)]).
    pose (body := JObj [("id", JNum 1); ("name", JStr "Ada");
                        ("email", JStr "ada@example.com"); ("fetchedAt", stamp)]).
    pose (r := mkResponse 200 (inr body)).
    destruct (H (reference_host None (Resolves r)) id_1 r body stamp
                eq_refl eq_refl eq_refl eq_refl) as [data' Hd]; [discriminate |].
    vm_compute in Hd. discriminate Hd.
Qed.

(** C7 (amended).  For every 2xx user response whose [fetchedAt] [new Date]
    accepts without throwing and turns into an invalid date, [fetchUser] does
    not fail and returns the record exactly as decoded; it logs one warning
    carrying the value when the value is truthy, and no warning when the
    value is falsy (such as the empty string), which it never parses. *)
Theorem C7_invalid_timestamp_passes_through h userId r body v :
  network h (user_url h userId) = Resolves r -> ok r = true ->
  json_result r = inr body ->
  js_get body "fetchedAt" = Some (Some v) -> Date_new h v = inr None ->
  outcome (fetchUser h userId) = inr body
  /\ warnings (effects (fetchUser h userId))
     = (if truthy v then [("Invalid date received:", [v])] else []).
Proof.
  intros Hn Hok Hj Hg Hd. unfold outcome, effects.
  rewrite (fetchUser_decoded h userId r body Hn Hok Hj).
  destruct (truthy v) eqn:Ht.
  - rewrite (convert_invalid h _ _ _ Hg Ht Hd). cbn [fst snd]. split; [done |].
    by rewrite !warnings_app.
  - by rewrite (convert_falsy h _ _ _ Hg Ht).
Qed.

Lemma C7_invalid_timestamp_passes_through_witness :
  let body := JObj [("id", JNum 1); ("name", JStr "Ada");
                    ("email", JStr "ada@example.com");
                    ("fetchedAt", JStr "yesterday")] in
  let h := reference_host None (Resolves (mkResponse 200 (inr body))) in
  outcome (fetchUser h id_1) = inr body
  /\ warnings (effects (fetchUser h id_1)) = [("Invalid date received:", [JStr "yesterday"])].
Proof.
  intros body h.
  apply (C7_invalid_timestamp_passes_through h id_1 (mkResponse 200 (inr body)) body
           (JStr "yesterday")); reflexivity.
Defined.

(** ** The components *)

Lemma count_tag_PostCard post :
  count_tag "h3" (PostCard post) = 0%nat /\ count_tag "h4" (PostCard post) = 1%nat.
Proof. split; reflexivity. Qed.

Lemma sum_list_const {A B} (f : B -> nat) (g : A -> B) (n : nat) (l : list A) :
  (forall x, f (g x) = n) -> sum_list (map f (map g l)) = (n * length l)%nat.
Proof.
  intros Hn. induction l as [| x rest IH]; simpl; [lia |].
  rewrite Hn. simpl in IH. rewrite IH. lia.
Qed.

Lemma count_tag_PostsSection posts :
  count_tag "h3" (PostsSection posts) = 1%nat
  /\ count_tag "h4" (PostsSection posts) = length posts.
Proof.
  unfold PostsSection, elem. cbn [count_tag map sum_list String.eqb Ascii.eqb Bool.eqb].
  rewrite (sum_list_const (count_tag "h3") PostCard 0),
          (sum_list_const (count_tag "h4") PostCard 1);
    [| intros; apply count_tag_PostCard ..].
  split; cbn; lia.
Qed.

Lemma hasPosts_iff data :
  hasPosts data = true <-> exists post rest, data = Some (post :: rest).
Proof.
  unfold hasPosts. destruct data as [[| post rest] |]; simpl.
  - split; [done | intros (? & ? & [=])].
  - split; [eauto | intros _; apply Z.ltb_lt; lia].
  - split; [done | intros (? & ? & [=])].
Qed.

(** What the error slot can hold: nothing, the box of a truthy error, or the
    text of a falsy one. *)
Lemma ErrorSlot_cases err :
  ErrorSlot err = []
  \/ (exists e, err = Some e /\ thrown_truthy e = true /\ ErrorSlot err = [ErrorBox e])
  \/ (exists s, ErrorSlot err = [VText s]).
Proof.
  destruct err as [e |]; [| by left]. unfold ErrorSlot.
  destruct (thrown_truthy e) eqn:Ht; [right; left; by exists e |].
  destruct e as [x | v]; [by left |].
  destruct v; try (by left). right. right. by eexists.
Qed.

(** C10.  [FetchDataReactQuery] renders the posts section exactly when
    [data] is defined and non-empty, and then it is the section of [data]:
    one count header and one card per post, placed last.  With [data]
    undefined or the empty array the tree holds no header and no card. *)
Theorem C10_posts_section_iff_nonempty q :
  (renders_posts_section (FetchDataReactQuery q)
   <-> exists post rest, q_data q = Some (post :: rest))
  /\ (forall posts, q_data q = Some posts -> posts <> [] ->
        last (children_of (FetchDataReactQuery q)) = Some (PostsSection posts)
        /\ count_tag "h3" (FetchDataReactQuery q) = 1%nat
        /\ count_tag "h4" (FetchDataReactQuery q) = length posts)
  /\ (q_data q = None \/ q_data q = Some [] ->
        count_tag "h3" (FetchDataReactQuery q) = 0%nat
        /\ count_tag "h4" (FetchDataReactQuery q) = 0%nat).
Proof.
  destruct q as [data loading err]. unfold FetchDataReactQuery, renders_posts_section.
  cbn [q_data q_isLoading q_error children_of elem].
  split; [split | split].
  - intros (posts & Hin). apply hasPosts_iff.
    destruct (hasPosts data); [done |].
    unfold when in Hin. rewrite app_nil_r in Hin.
    apply in_app_or in Hin as [Hin | Hin].
    + cbn in Hin. destruct Hin as [H | [H | []]]; discriminate H.
    + destruct (ErrorSlot_cases err) as [Hs | [(e & _ & _ & Hs) | (s & Hs)]];
        rewrite Hs in Hin.
      * destruct Hin.
      * destruct Hin as [H | []]. unfold ErrorBox, PostsSection, elem in H.
        discriminate H.
      * destruct Hin as [H | []]. discriminate H.
  - intros (post & rest & ->). exists (post :: rest).
    apply in_or_app. right. apply in_or_app. right. cbn. by left.
  - intros posts -> Hne.
    assert (hasPosts (Some posts) = true) as Hhas.
    { apply hasPosts_iff. destruct posts; [done | eauto]. }
    rewrite Hhas. cbn [when default].
    destruct (count_tag_PostsSection posts) as [H3 H4].
    destruct (ErrorSlot_cases err) as [Hs | [(e & _ & _ & Hs) | (s & Hs)]];
      rewrite Hs; (split; [reflexivity |]);
      unfold ErrorBox, elem; cbn -[PostsSection]; rewrite H3, H4; split; lia.
  - intros Hempty.
    assert (hasPosts data = false) as ->.
    { destruct Hempty as [-> | ->]; reflexivity. }
    cbn [when].
    destruct (ErrorSlot_cases err) as [Hs | [(e & _ & _ & Hs) | (s & Hs)]];
      rewrite Hs; split; reflexivity.
Qed.

(** ** Further properties of the fetchers *)

(** [response.ok] is the 2xx range. *)
Lemma ok_iff_2xx r : ok r = true <-> 200 <= status r <= 299.
Proof. unfold ok. rewrite andb_true_iff, !Z.leb_le. lia. Qed.

Lemma props_set_keys props k v w :
  props_get props k = Some w -> map fst (props_set props k v) = map fst props.
Proof.
  induction props as [| [k' v'] rest IH]; simpl; [done |].
  destruct (String.eqb k' k) eqn:E.
  - apply String.eqb_eq in E. by subst.
  - intros H. simpl. by rewrite IH.
Qed.

Lemma js_set_keys data k v w :
  js_get data k = Some (Some w) -> js_keys (js_set data k v) = js_keys data.
Proof.
  destruct data; simpl; try done.
  intros [= H]. by apply (props_set_keys _ _ _ w).
Qed.

(** What the timestamp block can return: the record itself, or the record
    after an assignment to a [fetchedAt] it already has. *)
Lemma convert_result h data tr data' :
  snd (convertFetchedAt h data tr) = inr data' ->
  data' = data
  \/ exists v w, js_get data "fetchedAt" = Some (Some v)
                 /\ data' = js_set data "fetchedAt" w.
Proof.
  destruct (js_get data "fetchedAt") as [[v |] |] eqn:Hg.
  - destruct (truthy v) eqn:Ht.
    + destruct (Date_new h v) as [e | [t |]] eqn:Hd.
      * by rewrite (convert_throws h _ _ e _ Hg Ht Hd).
      * rewrite (convert_valid h _ _ t _ Hg Ht Hd). intros [= <-]. eauto.
      * rewrite (convert_invalid h _ _ _ Hg Ht Hd). intros [= <-]. eauto.
    + rewrite (convert_falsy h _ _ _ Hg Ht). intros [= <-]. eauto.
  - rewrite (convert_absent h _ _ Hg). intros [= <-]. eauto.
  - apply js_get_None in Hg. subst. by rewrite convert_null.
Qed.

(** The whole run of [fetchUser], by what the network answers. *)
Lemma fetchUser_run_cases h userId :
  run (fetchUser h userId) = (user_prefix h userId, snd (run (fetchUser h userId)))
  /\ (forall d, snd (run (fetchUser h userId)) <> inr d)
  \/ exists r body tr d,
       network h (user_url h userId) = Resolves r /\ ok r = true
       /\ json_result r = inr body
       /\ convertFetchedAt h body (user_prefix h userId) = (tr, inr d)
       /\ run (fetchUser h userId)
          = (tr ++ [ConsoleLog ("✅ Received data for user " +:+ Number_toString h userId +:+ ":") [d]],
             inr d).
Proof.
  destruct (network h (user_url h userId)) as [e | r] eqn:Hn.
  { left. by rewrite (fetchUser_rejected h userId e Hn). }
  destruct (ok r) eqn:Hok.
  2: { left. by rewrite (fetchUser_not_ok h userId r Hn Hok). }
  destruct (json_result r) as [e | body] eqn:Hj.
  { left. by rewrite (fetchUser_undecodable h userId r e Hn Hok Hj). }
  rewrite (fetchUser_decoded h userId r body Hn Hok Hj).
  destruct (convertFetchedAt h body (user_prefix h userId)) as [tr [e | d]] eqn:Hc.
  - left. destruct (js_get body "fetchedAt") as [[v |] |] eqn:Hg.
    + destruct (truthy v) eqn:Ht.
      * destruct (Date_new h v) as [e' | [t |]] eqn:Hd.
        -- rewrite (convert_throws h _ _ e' _ Hg Ht Hd) in Hc.
           injection Hc as <- <-. done.
        -- by rewrite (convert_valid h _ _ t _ Hg Ht Hd) in Hc.
        -- by rewrite (convert_invalid h _ _ _ Hg Ht Hd) in Hc.
      * by rewrite (convert_falsy h _ _ _ Hg Ht) in Hc.
    + by rewrite (convert_absent h _ _ Hg) in Hc.
    + apply js_get_None in Hg. subst. rewrite convert_null in Hc.
      injection Hc as <- <-. done.
  - right. exists r, body, tr, d. done.
Qed.

(** X1.  Whatever the network answers, [fetchUser] first logs the call, then
    makes its one request, and makes no other request after it. *)
Theorem fetchUser_logs_then_requests_once h userId :
  exists rest,
    effects (fetchUser h userId)
    = [ ConsoleLog ("🌐 Making API call for user " +:+ Number_toString h userId +:+ "...") [];
        Fetch (apiUrl h +:+ "/api/user/" +:+ Number_toString h userId) ] ++ rest
    /\ fetched_urls rest = [].
Proof.
  unfold effects.
  destruct (fetchUser_run_cases h userId) as [[-> _] | (r & body & tr & d & _ & _ & _ & Hc & ->)].
  - exists []. by rewrite app_nil_r.
  - destruct (convert_trace h body (user_prefix h userId)) as (extra & Htr & Hex).
    rewrite Hc in Htr. simpl in Htr. subst tr.
    eexists (extra ++ [_]). cbn [fst]. split.
    + reflexivity.
    + by rewrite fetched_urls_app, Hex.
Qed.

(** X2.  The request of [fetchUser] goes to the configured base url when
    [VITE_API_URL] is a non-empty string, and to [http://localhost:3000]
    both when it is unset and when it is the empty string. *)
Theorem fetchUser_base_url h userId :
  (forall u, VITE_API_URL h = Some u -> u <> "" ->
     fetched_urls (effects (fetchUser h userId)) = [u +:+ "/api/user/" +:+ Number_toString h userId])
  /\ (VITE_API_URL h = None \/ VITE_API_URL h = Some "" ->
      fetched_urls (effects (fetchUser h userId))
      = ["http://localhost:3000" +:+ "/api/user/" +:+ Number_toString h userId]).
Proof.
  rewrite fetchUser_url. unfold user_url. split.
  - intros u Hu Hne. by rewrite (apiUrl_set h u Hu Hne).
  - intros [Hu | Hu]; [by rewrite (apiUrl_unset h Hu) |].
    unfold apiUrl. by rewrite Hu.
Qed.

(** X3.  When the transport fails, [fetchUser] rejects with the very
    rejection of [fetch]; it has then only logged the call and made the
    request. *)
Theorem fetchUser_transport_failure h userId e :
  network h (user_url h userId) = Rejects e ->
  outcome (fetchUser h userId) = inl e
  /\ effects (fetchUser h userId) = user_prefix h userId.
Proof.
  intros Hn. unfold outcome, effects. by rewrite (fetchUser_rejected h userId e Hn).
Qed.

Lemma fetchUser_transport_failure_witness :
  let e := Exn "TypeError" "Failed to fetch" in
  let h := reference_host None (Rejects e) in
  outcome (fetchUser h id_1) = inl e /\ effects (fetchUser h id_1) = user_prefix h id_1.
Proof.
  intros e h. apply (fetchUser_transport_failure h id_1 e). reflexivity.
Defined.

(** X4.  On a response outside the 2xx range [fetchUser] throws its own
    [Error("Failed to fetch user")] without reading the body: the same error
    whether the body is JSON or not, and nothing further is logged. *)
Theorem fetchUser_non_2xx_ignores_body h userId r :
  network h (user_url h userId) = Resolves r ->
  ~ (200 <= status r <= 299) ->
  outcome (fetchUser h userId) = inl (new_Error "Failed to fetch user")
  /\ effects (fetchUser h userId) = user_prefix h userId.
Proof.
  intros Hn Hst.
  assert (ok r = false) as Hok.
  { destruct (ok r) eqn:E; [| done]. by apply ok_iff_2xx in E. }
  unfold outcome, effects. by rewrite (fetchUser_not_ok h userId r Hn Hok).
Qed.

Lemma fetchUser_non_2xx_ignores_body_witness :
  let r := mkResponse 404 (inl (Exn "SyntaxError" "Unexpected token '<'")) in
  let h := reference_host None (Resolves r) in
  outcome (fetchUser h id_1) = inl (new_Error "Failed to fetch user")
  /\ effects (fetchUser h id_1) = user_prefix h id_1.
Proof.
  intros r h. apply (fetchUser_non_2xx_ignores_body h id_1 r); [reflexivity |].
  simpl. lia.
Defined.

(** X5.  [fetchUser] resolves with [d] exactly when the last thing it did
    was to log the received data [d]: every failure ends before that log,
    and the log shows the record as returned. *)
Theorem fetchUser_received_log_iff_resolved h userId d :
  outcome (fetchUser h userId) = inr d
  <-> last (effects (fetchUser h userId))
      = Some (ConsoleLog ("✅ Received data for user " +:+ Number_toString h userId +:+ ":") [d]).
Proof.
  unfold outcome, effects.
  destruct (fetchUser_run_cases h userId)
    as [[Hrun Hno] | (r & body & tr & d' & _ & _ & _ & _ & ->)].
  - rewrite Hrun. cbn [fst snd]. split.
    + intros H. by destruct (Hno d).
    + unfold user_prefix. cbn. intros [=].
  - cbn [fst snd]. rewrite last_snoc. split; intros [= ->]; done.
Qed.

(** X6.  [fetchUser] warns at most once, and only about a truthy
    [fetchedAt] of a decoded 2xx body that [Date] rejects; the warning then
    carries that value. *)
Theorem fetchUser_warns_only_for_rejected_timestamp h userId :
  (length (warnings (effects (fetchUser h userId))) <= 1)%nat
  /\ forall msg args,
       In (msg, args) (warnings (effects (fetchUser h userId))) ->
       msg = "Invalid date received:"
       /\ exists r body v,
            network h (user_url h userId) = Resolves r /\ ok r = true
            /\ json_result r = inr body
            /\ js_get body "fetchedAt" = Some (Some v)
            /\ truthy v = true /\ Date_new h v = inr None /\ args = [v].
Proof.
  unfold effects.
  destruct (fetchUser_run_cases h userId)
    as [[-> _] | (r & body & tr & d & Hn & Hok & Hj & Hc & ->)].
  { cbn. split; [lia | intros ? ? []]. }
  cbn [fst]. rewrite warnings_app. cbn [warnings]. rewrite app_nil_r.
  destruct (js_get body "fetchedAt") as [[v |] |] eqn:Hg.
  - destruct (truthy v) eqn:Ht.
    + destruct (Date_new h v) as [e | [t |]] eqn:Hd.
      * by rewrite (convert_throws h _ _ e _ Hg Ht Hd) in Hc.
      * rewrite (convert_valid h _ _ t _ Hg Ht Hd) in Hc. injection Hc as <- _.
        cbn. split; [lia | intros ? ? []].
      * rewrite (convert_invalid h _ _ _ Hg Ht Hd) in Hc. injection Hc as <- _.
        cbn. split; [lia |].
        intros msg args [[= <- <-] | []]. split; [done |].
        exists r, body, v. done.
    + rewrite (convert_falsy h _ _ _ Hg Ht) in Hc. injection Hc as <- _.
      cbn. split; [lia | intros ? ? []].
  - rewrite (convert_absent h _ _ Hg) in Hc. injection Hc as <- _.
    cbn. split; [lia | intros ? ? []].
  - apply js_get_None in Hg. subst. by rewrite convert_null in Hc.
Qed.

(** X7.  The record a successful [fetchUser] returns has exactly the
    property names of the decoded body, in the same order, and a body that is
    not an object is returned as it is: the timestamp block never adds,
    removes or reorders a property. *)
Theorem fetchUser_keeps_property_names h userId user :
  outcome (fetchUser h userId) = inr user ->
  exists r body,
    network h (user_url h userId) = Resolves r
    /\ json_result r = inr body
    /\ js_keys user = js_keys body
    /\ ((forall props, body <> JObj props) -> user = body).
Proof.
  intros Hout.
  destruct (fetchUser_success_inv h userId user Hout)
    as (r & body & Hn & _ & Hj & _ & Hconv).
  exists r, body. split; [done |]. split; [done |].
  destruct (convert_result h _ _ _ Hconv) as [-> | (v & w & Hg & ->)]; [done |].
  split; [by apply (js_set_keys _ _ _ v) |].
  intros Hnot. destruct body; try discriminate Hg. by destruct (Hnot props).
Qed.

Lemma fetchUser_keeps_property_names_witness :
  let body := JObj [("fetchedAt", JStr "2024-01-15T14:30:45.000Z"); ("id", JNum 1);
                    ("name", JStr "Ada"); ("email", JStr "ada@example.com")] in
  let user := JObj [("fetchedAt", JStr "14:30:45"); ("id", JNum 1);
                    ("name", JStr "Ada"); ("email", JStr "ada@example.com")] in
  let h := reference_host None (Resolves (mkResponse 200 (inr body))) in
  exists r body0,
    network h (user_url h id_1) = Resolves r
    /\ json_result r = inr body0
    /\ js_keys user = js_keys body0
    /\ ((forall props, body0 <> JObj props) -> user = body0).
Proof.
  intros body user h. apply (fetchUser_keeps_property_names h id_1 user). reflexivity.
Defined.

(** X8.  A falsy [fetchedAt] (0, the empty string, [null], [false]) is never
    handed to [Date]: whatever [Date] would make of it, the record comes back
    exactly as decoded and nothing is warned about. *)
Theorem fetchUser_leaves_falsy_timestamp h userId r body v :
  network h (user_url h userId) = Resolves r -> ok r = true ->
  json_result r = inr body ->
  js_get body "fetchedAt" = Some (Some v) -> truthy v = false ->
  outcome (fetchUser h userId) = inr body
  /\ warnings (effects (fetchUser h userId)) = [].
Proof.
  intros Hn Hok Hj Hg Ht. unfold outcome, effects.
  rewrite (fetchUser_decoded h userId r body Hn Hok Hj).
  by rewrite (convert_falsy h _ _ _ Hg Ht).
Qed.

Lemma fetchUser_leaves_falsy_timestamp_witness :
  let body := JObj [("id", JNum 1); ("name", JStr "Ada");
                    ("email", JStr "ada@example.com"); ("fetchedAt", JNum 0)] in
  let h := reference_host None (Resolves (mkResponse 200 (inr body))) in
  Date_new h (JNum 0) = inr (Some 0)
  /\ outcome (fetchUser h id_1) = inr body
  /\ warnings (effects (fetchUser h id_1)) = [].
Proof.
  intros body h. split; [reflexivity |].
  apply (fetchUser_leaves_falsy_timestamp h id_1 (mkResponse 200 (inr body)) body (JNum 0));
    reflexivity.
Defined.

(** X19.  [fetchUser] resolves exactly when the response is 2xx, its body
    decodes to a value other than [null], and [new Date] does not throw on a
    truthy [fetchedAt] of it; in every other case it rejects. *)
Theorem fetchUser_resolves_iff h userId :
  (exists user, outcome (fetchUser h userId) = inr user)
  <-> exists r body,
        network h (user_url h userId) = Resolves r
        /\ 200 <= status r <= 299 /\ json_result r = inr body /\ body <> JNull
        /\ (forall v, js_get body "fetchedAt" = Some (Some v) -> truthy v = true ->
                      exists d, Date_new h v = inr d).
Proof.
  split.
  - intros (user & Hout).
    destruct (fetchUser_success_inv h userId user Hout)
      as (r & body & Hn & Hok & Hj & Hnull & Hconv).
    exists r, body. apply ok_iff_2xx in Hok. repeat split; try done; try lia.
    intros v Hg Ht. destruct (Date_new h v) as [e | d] eqn:Hd; [| by eexists].
    by rewrite (convert_throws h _ _ e _ Hg Ht Hd) in Hconv.
  - intros (r & body & Hn & Hst & Hj & Hnull & Hdate). apply ok_iff_2xx in Hst.
    unfold outcome. rewrite (fetchUser_decoded h userId r body Hn Hst Hj).
    destruct (convertFetchedAt h body (user_prefix h userId)) as [tr [e | d]] eqn:Hc;
      [| by eexists].
    exfalso. destruct (js_get body "fetchedAt") as [[v |] |] eqn:Hg.
    + destruct (truthy v) eqn:Ht.
      * destruct (Hdate v eq_refl Ht) as [[t |] Hd].
        -- by rewrite (convert_valid h _ _ t _ Hg Ht Hd) in Hc.
        -- by rewrite (convert_invalid h _ _ _ Hg Ht Hd) in Hc.
      * by rewrite (convert_falsy h _ _ _ Hg Ht) in Hc.
    + by rewrite (convert_absent h _ _ Hg) in Hc.
    + by apply js_get_None in Hg.
Qed.

(** X9.  In every outcome [fetchPosts] makes exactly one request, to
    [http://localhost:3000/api/posts], and writes nothing to the console. *)
Theorem fetchPosts_one_silent_request h :
  effects (fetchPosts h) = [Fetch "http://localhost:3000/api/posts"].
Proof. unfold effects. by rewrite fetchPosts_run. Qed.

(** X10.  [fetchPosts] resolves with a value exactly when the response is
    2xx and that value is what its body decodes to. *)
Theorem fetchPosts_resolves_iff h posts :
  outcome (fetchPosts h) = inr posts
  <-> exists r, network h posts_url = Resolves r
                /\ 200 <= status r <= 299 /\ json_result r = inr posts.
Proof.
  unfold outcome. rewrite fetchPosts_run. cbn [snd]. split.
  - destruct (network h posts_url) as [e | r]; [done |].
    destruct (ok r) eqn:Hok; [| done].
    intros Hj. exists r. by apply ok_iff_2xx in Hok.
  - intros (r & -> & Hst & Hj). apply ok_iff_2xx in Hst. by rewrite Hst.
Qed.

(** X11.  How [fetchPosts] fails: a transport failure is passed on as it
    is; a response outside the 2xx range gives [Error("Failed to fetch data")]
    whatever its body; a 2xx body that does not decode gives the decoder's
    error. *)
Theorem fetchPosts_failures h :
  (forall e, network h posts_url = Rejects e -> outcome (fetchPosts h) = inl e)
  /\ (forall r, network h posts_url = Resolves r -> ~ (200 <= status r <= 299) ->
        outcome (fetchPosts h) = inl (new_Error "Failed to fetch data"))
  /\ (forall r e, network h posts_url = Resolves r -> 200 <= status r <= 299 ->
        json_result r = inl e -> outcome (fetchPosts h) = inl e).
Proof.
  unfold outcome. rewrite fetchPosts_run. cbn [snd]. split; [| split].
  - by intros e ->.
  - intros r -> Hst. destruct (ok r) eqn:Hok; [| done]. by apply ok_iff_2xx in Hok.
  - intros r e -> Hst Hj. apply ok_iff_2xx in Hst. by rewrite Hst.
Qed.

(** ** Further properties of the components *)

Lemma flat_map_map_nil {A B C} (f : B -> list C) (g : A -> B) (l : list A) :
  (forall x, f (g x) = []) -> flat_map f (map g l) = [].
Proof.
  intros H. induction l as [| x rest IH]; simpl; [done |]. by rewrite H, IH.
Qed.

Lemma flat_map_map_singleton {A B C} (f : B -> list C) (g : A -> B) (k : A -> C)
    (l : list A) :
  (forall x, f (g x) = [k x]) -> flat_map f (map g l) = map k l.
Proof.
  intros H. induction l as [| x rest IH]; simpl; [done |]. by rewrite H, IH.
Qed.

Lemma PostsSection_no_button posts : elements_with_tag "button" (PostsSection posts) = [].
Proof.
  unfold PostsSection, elem. cbn -[PostCard].
  by apply flat_map_map_nil.
Qed.

Lemma PostsSection_titles posts :
  elements_with_tag "h4" (PostsSection posts) = map PostTitle posts.
Proof.
  unfold PostsSection, elem. cbn -[PostCard].
  by apply flat_map_map_singleton.
Qed.

(** X12.  Whatever the query holds, the rendered tree has exactly one
    button: it calls [refetch], it is disabled exactly while [isLoading], and
    it reads "Loading..." while loading and "Fetch" otherwise. *)
Theorem FetchDataReactQuery_single_button q :
  exists b,
    elements_with_tag "button" (FetchDataReactQuery q) = [b]
    /\ onClick_of b = Some CallRefetch
    /\ disabled_of b = q_isLoading q
    /\ children_of b = [VText (if q_isLoading q then "Loading..." else "Fetch")].
Proof.
  destruct q as [data loading err]. unfold FetchDataReactQuery, elem.
  cbn [q_data q_isLoading q_error]. eexists. split.
  - cbn [elements_with_tag String.eqb Ascii.eqb Bool.eqb app flat_map].
    unfold when.
    destruct (ErrorSlot_cases err) as [Hs | [(e & _ & _ & Hs) | (s & Hs)]];
      rewrite Hs; destruct (hasPosts data);
      cbn -[PostsSection]; rewrite ?PostsSection_no_button; reflexivity.
  - done.
Qed.

(** X13.  The error box is rendered exactly when [error] is truthy, as the
    third child, right after the button; it shows the message of an [Error]
    and "An error occurred" for any other truthy value.  A falsy [error]
    gives no box, and the number 0 is rendered as the text "0". *)
Theorem FetchDataReactQuery_error_box q :
  ((exists e, In (ErrorBox e) (children_of (FetchDataReactQuery q)))
   <-> exists e, q_error q = Some e /\ thrown_truthy e = true)
  /\ (forall e, q_error q = Some e -> thrown_truthy e = true ->
        children_of (FetchDataReactQuery q) !! 2%nat = Some (ErrorBox e)
        /\ children_of (ErrorBox e)
           = [ VText "Error: ";
               VText (match e with
                      | ThrownError x => exn_message x
                      | ThrownOther _ => "An error occurred"
                      end) ])
  /\ (q_error q = Some (ThrownOther (JNum 0)) ->
      children_of (FetchDataReactQuery q) !! 2%nat = Some (VText "0")).
Proof.
  destruct q as [data loading err]. unfold FetchDataReactQuery.
  cbn [q_data q_isLoading q_error children_of elem]. split; [| split].
  - split.
    + intros (e & Hin). cbn [app] in Hin.
      destruct Hin as [H | [H | Hin]]; [discriminate H | discriminate H |].
      apply in_app_or in Hin as [Hin | Hin].
      * destruct (ErrorSlot_cases err) as [Hs | [(e' & -> & Ht & Hs) | (s & Hs)]];
          rewrite Hs in Hin.
        -- destruct Hin.
        -- by exists e'.
        -- destruct Hin as [H | []]. discriminate H.
      * unfold when in Hin. destruct (hasPosts data); [| done].
        destruct Hin as [H | []]. unfold ErrorBox, PostsSection, elem in H.
        discriminate H.
    + intros (e & -> & Ht). exists e. unfold ErrorSlot. rewrite Ht. cbn. auto.
  - intros e -> Ht. unfold ErrorSlot. rewrite Ht. split; reflexivity.
  - intros ->. reflexivity.
Qed.

(** X14.  The post titles on the page are exactly the titles of [data], one
    [h4] per post and in the order of [data]; there is none when [data] is
    undefined or empty, whatever [error] and [isLoading] are. *)
Theorem FetchDataReactQuery_titles q :
  elements_with_tag "h4" (FetchDataReactQuery q) = map PostTitle (default [] (q_data q)).
Proof.
  destruct q as [data loading err]. unfold FetchDataReactQuery, elem.
  cbn [q_data q_isLoading q_error].
  cbn [elements_with_tag String.eqb Ascii.eqb Bool.eqb app flat_map].
  unfold when.
  destruct data as [[| post rest] |]; cbn [hasPosts length default].
  - destruct (ErrorSlot_cases err) as [Hs | [(e & _ & _ & Hs) | (s & Hs)]];
      rewrite Hs; reflexivity.
  - change (0 <? Z.of_nat (S (length rest))) with true. cbn iota.
    destruct (ErrorSlot_cases err) as [Hs | [(e & _ & _ & Hs) | (s & Hs)]];
      rewrite Hs; cbn -[PostsSection PostTitle];
      by rewrite PostsSection_titles, app_nil_r.
  - destruct (ErrorSlot_cases err) as [Hs | [(e & _ & _ & Hs) | (s & Hs)]];
      rewrite Hs; reflexivity.
Qed.

(** X15.  In the posts section the count in the header is the number of
    cards, the cards carry the post ids as keys in the order of the posts,
    and so the keys are distinct exactly when the ids are. *)
Theorem PostsSection_header_and_keys posts :
  exists header cards,
    children_of (PostsSection posts) = header :: cards
    /\ children_of header
       = [VText "Posts ("; VText (pretty (Z.of_nat (length cards))); VText ")"]
    /\ map key_of cards = map (fun post => Some (post_id post)) posts
    /\ (NoDup (map key_of cards) <-> NoDup (map post_id posts)).
Proof.
  unfold PostsSection, elem. cbn [children_of]. eexists _, _. split; [done |].
  assert (map key_of (map PostCard posts) = map (fun post => Some (post_id post)) posts)
    as Hkeys.
  { rewrite map_map. reflexivity. }
  split; [by rewrite length_map |]. split; [done |].
  rewrite Hkeys. rewrite <- (map_map post_id Some).
  split.
  - apply (NoDup_fmap_1 Some).
  - apply (NoDup_fmap_2 Some).
Qed.

(** X16.  [UserSelector] always renders the buttons of users 1, 2 and 3,
    each calling [onSelectUser] with its own id; a button is highlighted
    exactly when its id is [selectedUserId], so exactly one button is
    highlighted for a selected id among 1, 2, 3 and none for any other. *)
Theorem UserSelector_highlights_the_selected_user selectedUserId :
  map key_of (children_of (UserSelector selectedUserId)) = [Some 1; Some 2; Some 3]
  /\ (forall b, In b (children_of (UserSelector selectedUserId)) ->
        onClick_of b = CallOnSelectUser <$> key_of b
        /\ (is_highlighted b = true <-> key_of b = Some selectedUserId))
  /\ length (List.filter is_highlighted (children_of (UserSelector selectedUserId)))
     = (if (1 <=? selectedUserId) && (selectedUserId <=? 3) then 1%nat else 0%nat).
Proof.
  unfold UserSelector, elem. cbn [children_of map].
  split; [reflexivity |]. split.
  - intros b [<- | [<- | [<- | []]]]; (split; [reflexivity |]);
      unfold is_highlighted; cbn [className_of key_of];
      match goal with
      | |- context [selectedUserId =? ?n] =>
          destruct (Z.eqb_spec selectedUserId n) as [-> | Hne]
      end;
      vm_compute; split; congruence.
  - unfold is_highlighted. cbn [List.filter className_of].
    destruct (Z.eqb_spec selectedUserId 1) as [-> | H1]; [reflexivity |].
    destruct (Z.eqb_spec selectedUserId 2) as [-> | H2]; [reflexivity |].
    destruct (Z.eqb_spec selectedUserId 3) as [-> | H3]; [reflexivity |].
    replace ((1 <=? selectedUserId) && (selectedUserId <=? 3)) with false;
      [reflexivity |].
    symmetry. apply andb_false_iff. rewrite !Z.leb_gt. lia.
Qed.

(** What [UserInfo] shows determines the name, the email and the id. *)
Lemma UserInfo_inj u1 u2 :
  UserInfo u1 = UserInfo u2 ->
  user_name u1 = user_name u2 /\ user_email u1 = user_email u2
  /\ user_id u1 = user_id u2.
Proof.
  unfold UserInfo, elem. intros [= Hname Hemail Hid].
  by apply (inj pretty) in Hid.
Qed.

Lemma UserInfo_ext u1 u2 :
  user_name u1 = user_name u2 -> user_email u1 = user_email u2 ->
  user_id u1 = user_id u2 -> UserInfo u1 = UserInfo u2.
Proof. unfold UserInfo. by intros -> -> ->. Qed.

(** X17.  Two users are shown alike by [UserInfo] exactly when they agree on
    name, email and id: the id is printed without loss, and [fetchedAt] is
    never shown. *)
Theorem UserInfo_shows_name_email_id u1 u2 :
  UserInfo u1 = UserInfo u2
  <-> user_name u1 = user_name u2 /\ user_email u1 = user_email u2
      /\ user_id u1 = user_id u2.
Proof.
  split; [apply UserInfo_inj |]. intros (? & ? & ?). by apply UserInfo_ext.
Qed.


(** ** The coordinator *)

Import Coordinator.

Section CoordinatorFacts.
Context (isFresh : Z -> CacheEntry -> bool).

Local Abbreviation request := (request isFresh).
Local Abbreviation step := (step isFresh).
Local Abbreviation run_events := (run_events isFresh).


Lemma run_events_cons ev evs s : run_events (ev :: evs) s = run_events evs (step ev s).
Proof. reflexivity. Qed.

Lemma count_snoc k k' log :
  count k (log ++ [k']) = (count k log + if decide (k' = k) then 1 else 0)%nat.
Proof.
  unfold count. rewrite filter_app, length_app. f_equal.
  rewrite filter_cons, filter_nil. by destruct (decide (k' = k)).
Qed.

(** Notifications for another key do not show up among those for [k]. *)
Lemma filter_notifications_other k k' (e : CacheEntry) (callers : list Caller) :
  key e = k' -> k' <> k ->
  filter (fun d : Caller * CacheEntry => key (snd d) = k) (map (fun c => (c, e)) callers) = [].
Proof.
  intros He Hne. induction callers as [| c rest IH]; [done |].
  cbn [map]. rewrite filter_cons. simpl. rewrite decide_False; [done | congruence].
Qed.


Lemma settled_entry_key now k result before : key (settled_entry now k result before) = k.
Proof. by destruct result. Qed.

(** The three things a request can do to the state. *)
Lemma request_cases now caller k opts s :
  fst (request now caller k opts s) = s
  \/ (exists callers, inflight s !! k = Some callers
        /\ fst (request now caller k opts s)
           = mkState (store s) (<[k := callers ++ [caller]]> (inflight s))
                     (fetches s) (settlements s) (delivered s))
  \/ (inflight s !! k = None
      /\ fst (request now caller k opts s) = start_fetch caller k s).
Proof.
  unfold Coordinator.request.
  destruct (negb (enabled opts) && negb (forceRefetch opts)); [by left |].
  destruct (inflight s !! k) as [callers |] eqn:Hin; [right; left; eauto |].
  destruct (get k (store s)) as [e |]; [| right; right; done].
  destruct (negb (forceRefetch opts) && cacheHit isFresh now e);
    [by left | right; right; done].
Qed.

(** What one event leaves alone: everything that belongs to other keys. *)
Lemma step_other ev s k :
  event_key ev <> k ->
  store (step ev s) !! k = store s !! k
  /\ inflight (step ev s) !! k = inflight s !! k
  /\ count k (fetches (step ev s)) = count k (fetches s)
  /\ count k (settlements (step ev s)) = count k (settlements s)
  /\ deliveries k (step ev s) = deliveries k s.
Proof.
  intros Hne. destruct ev as [now caller k' opts | now k' result]; simpl in Hne.
  - cbn [Coordinator.step].
    destruct (request_cases now caller k' opts s) as [-> | [(cs & _ & ->) | (_ & ->)]];
      [done | |].
    + cbn. by rewrite lookup_insert_ne.
    + unfold start_fetch, put. cbn [store inflight fetches settlements delivered].
      rewrite !lookup_insert_ne by done. rewrite count_snoc, decide_False by done.
      repeat split; try done; lia.
  - cbn [Coordinator.step]. unfold settle.
    destruct (inflight s !! k') as [cs |]; [| done].
    unfold put, deliveries. cbn [store inflight fetches settlements delivered].
    rewrite lookup_insert_ne, lookup_delete_ne by done.
    rewrite count_snoc, decide_False by done.
    rewrite filter_app, (filter_notifications_other k k'), app_nil_r;
      [| apply settled_entry_key | done].
    repeat split; try done; lia.
Qed.

(** ** Reachable states *)

Lemma consistent_init k : consistent_at k init.
Proof.
  unfold consistent_at, outstanding. cbn. rewrite !lookup_empty.
  repeat split; intros; done.
Qed.

Lemma consistent_step ev s k : consistent_at k s -> consistent_at k (step ev s).
Proof.
  intros [Hkey Hinv].
  destruct (decide (event_key ev = k)) as [Heq | Hne].
  2: { destruct (step_other ev s k Hne) as (Hs & Hi & Hf & Hst & _).
       unfold consistent_at, outstanding. rewrite Hs, Hi, Hf, Hst. by split. }
  destruct ev as [now caller k' opts | now k' result]; simpl in Heq; subst k'.
  - cbn [Coordinator.step].
    destruct (request_cases now caller k opts s) as [-> | [(cs & Hin & ->) | (Hin & ->)]].
    + by split.
    + rewrite Hin in Hinv. unfold consistent_at, outstanding in *.
      cbn [store inflight fetches settlements]. by rewrite lookup_insert_eq.
    + rewrite Hin in Hinv. destruct Hinv as [Hidle Hout].
      unfold consistent_at, outstanding, start_fetch, put, get in *.
      cbn [store inflight fetches settlements]. rewrite !lookup_insert_eq.
      rewrite count_snoc, decide_True by done. split; [| split].
      * intros e [= <-]. destruct (store s !! k) as [e0 |] eqn:He0; [| done].
        cbn. by apply Hkey.
      * eexists. split; [done |]. by destruct (store s !! k).
      * lia.
  - cbn [Coordinator.step]. unfold settle.
    destruct (inflight s !! k) as [cs |] eqn:Hin.
    2: { split; [done |]. by rewrite Hin. }
    destruct Hinv as [_ Hout].
    unfold consistent_at, outstanding, put, get in *.
    cbn [store inflight fetches settlements]. rewrite lookup_insert_eq, lookup_delete_eq.
    rewrite count_snoc, decide_True by done. split; [| split].
    + intros e [= <-]. apply settled_entry_key.
    + intros e [= <-]. by destruct result.
    + lia.
Qed.

Lemma consistent_reachable evs k : consistent_at k (run_events evs init).
Proof.
  assert (forall s, consistent_at k s -> consistent_at k (run_events evs s)) as H.
  { induction evs as [| ev rest IH]; intros s Hs; [done |].
    rewrite run_events_cons. apply IH. by apply consistent_step. }
  apply H, consistent_init.
Qed.

(** Every entry of a reachable store satisfies the invariant of the data
    model. *)
Lemma entries_ok_step ev s :
  (forall k e, store s !! k = Some e -> entry_ok e) ->
  forall k e, store (step ev s) !! k = Some e -> entry_ok e.
Proof.
  intros Hok k e.
  destruct (decide (event_key ev = k)) as [Heq | Hne].
  2: { destruct (step_other ev s k Hne) as (-> & _). apply Hok. }
  destruct ev as [now caller k' opts | now k' result]; simpl in Heq; subst k'.
  - cbn [Coordinator.step].
    destruct (request_cases now caller k opts s) as [-> | [(cs & _ & ->) | (_ & ->)]];
      [apply Hok | apply Hok |].
    unfold start_fetch, put, get. cbn [store]. rewrite lookup_insert_eq.
    intros [= <-]. destruct (store s !! k); split; done.
  - cbn [Coordinator.step]. unfold settle.
    destruct (inflight s !! k) as [cs |]; [| apply Hok].
    unfold put. cbn [store]. rewrite lookup_insert_eq. intros [= <-].
    destruct result; split; cbn; try done; eauto.
Qed.

Lemma entries_ok_reachable evs k e :
  store (run_events evs init) !! k = Some e -> entry_ok e.
Proof.
  assert (forall s, (forall k e, store s !! k = Some e -> entry_ok e) ->
                    forall k e, store (run_events evs s) !! k = Some e -> entry_ok e)
    as H.
  { induction evs as [| ev rest IH]; intros s Hs; [done |].
    rewrite run_events_cons. apply IH. by apply entries_ok_step. }
  apply H. intros k' e'. unfold init. cbn. by rewrite lookup_empty.
Qed.


(** ** Requests while a fetch is in flight *)




(** ** Disabled requests *)


(** ** Settlement *)

(** C8.  When the fetch in flight for a key settles successfully, [get]
    returns an entry with status Success, the data RemoteDataSource
    produced, no error, and [fetchedAt] the time of the write. *)
Theorem C8_successful_fetch_round_trip
    (s : State) (k : ResourceKey) (callers : list Caller) (now : Z) (payload : json) :
  inflight s !! k = Some callers ->
  get k (store (step (Settle now k (inr payload)) s))
  = Some (mkEntry k (Some payload) now Success None).
Proof.
  intros Hin. cbn [Coordinator.step]. unfold settle, get, put. rewrite Hin.
  cbn [store settled_entry]. by rewrite lookup_insert_eq.
Qed.

(** Only a successful settlement for [k] replaces the data held for [k]. *)
Lemma stale_data_kept ev s k d t0 :
  not_success_for k ev ->
  (exists e, store s !! k = Some e /\ data e = Some d /\ fetchedAt e = t0) ->
  exists e, store (step ev s) !! k = Some e /\ data e = Some d /\ fetchedAt e = t0.
Proof.
  intros Hev (e & He & Hd & Ht).
  destruct (decide (event_key ev = k)) as [Heq | Hne].
  2: { destruct (step_other ev s k Hne) as (-> & _). eauto. }
  destruct ev as [now caller k' opts | now k' result]; simpl in Heq; subst k'.
  - cbn [Coordinator.step].
    destruct (request_cases now caller k opts s) as [-> | [(cs & _ & ->) | (_ & ->)]];
      [eauto | cbn; eauto |].
    unfold start_fetch, put, get. cbn [store]. rewrite lookup_insert_eq, He.
    eexists. split; [done |]. by cbn.
  - cbn [Coordinator.step]. unfold settle.
    destruct (inflight s !! k) as [cs |]; [| eauto].
    unfold put, get. cbn [store]. rewrite lookup_insert_eq, He.
    destruct result as [failure | payload]; [| by simpl in Hev].
    eexists. split; [done |]. cbn. by rewrite Hd, Ht.
Qed.

Lemma stale_data_kept_run evs k d t0 : forall s,
  Forall (not_success_for k) evs ->
  (exists e, store s !! k = Some e /\ data e = Some d /\ fetchedAt e = t0) ->
  exists e, store (run_events evs s) !! k = Some e /\ data e = Some d /\ fetchedAt e = t0.
Proof.
  induction evs as [| ev rest IH]; intros s Hall Hs; [done |].
  apply Forall_cons in Hall as [Hev Hrest]. rewrite run_events_cons.
  by apply IH, stale_data_kept.
Qed.

(** C3.  Let a fetch for a key settle successfully with some data, let
    anything follow except another successful settlement for that key, and
    let a fetch then in flight for the key fail.  The resulting entry has
    status Error, carries the failure as its error, and its data is still the
    data of the earlier success. *)
Theorem C3_failure_preserves_stale_data
    (s0 : State) (k : ResourceKey) (callers0 : list Caller) (t0 : Z) (d : json)
    (evs : list Event) (callers : list Caller) (t : Z) (failure : exn) :
  inflight s0 !! k = Some callers0 ->
  Forall (not_success_for k) evs ->
  let s := run_events (Settle t0 k (inr d) :: evs) s0 in
  inflight s !! k = Some callers ->
  get k (store (step (Settle t k (inl failure)) s))
  = Some (mkEntry k (Some d) t0 Error (Some failure)).
Proof.
  intros Hin0 Hall s Hin. subst s. rewrite run_events_cons in *.
  destruct (stale_data_kept_run evs k d t0 (step (Settle t0 k (inr d)) s0) Hall)
    as (e & He & Hd & Ht).
  { eexists. split.
    - cbn [Coordinator.step]. unfold settle, put. rewrite Hin0.
      cbn [store settled_entry]. by rewrite lookup_insert_eq.
    - done. }
  cbn [Coordinator.step] in *. unfold settle at 1. rewrite Hin.
  unfold get, put. cbn [store]. rewrite lookup_insert_eq, He. cbn.
  by rewrite Hd, Ht.
Qed.

(** ** What the display layer sees *)

(** In reachable states the flag is up exactly while a fetch is in flight. *)
Lemma isFetching_iff_inflight evs k :
  isFetching (observe k (run_events evs init)) = true
  <-> is_Some (inflight (run_events evs init) !! k).
Proof.
  destruct (consistent_reachable evs k) as [_ H]. unfold observe, get. cbn [isFetching].
  rewrite bool_decide_eq_true.
  destruct (inflight (run_events evs init) !! k) as [cs |].
  - destruct H as [(e & -> & He) _]. split; [eauto | done].
  - destruct H as [Hno _]. split; [| intros [? [=]]].
    intros Hf. destruct (store (run_events evs init) !! k) as [e |] eqn:He.
    + by destruct (Hno e eq_refl).
    + done.
Qed.

End CoordinatorFacts.

(** The flag as the card shows it: [CacheStatus] is the third child of
    [UserCard] and gets [isFetching] as passed in. *)
Lemma UserCard_passes_isFetching toggle user b :
  children_of (UserCard toggle user b) !! 2%nat = Some (CacheStatus b).
Proof. reflexivity. Qed.

(** C9.  The [isFetching] flag of a query is true exactly while the key's
    cache entry has status Fetching, which in reachable states is exactly
    while a fetch for the key is in flight; [CacheStatus] renders the
    fetching indicator when the flag is true and the served-from-cache
    indicator otherwise. *)
Theorem C9_isFetching_drives_CacheStatus :
  (forall s k,
     isFetching (observe k s) = true
     <-> exists e, get k (store s) = Some e /\ status e = Fetching)
  /\ (forall isFresh evs k,
        isFetching (observe k (run_events isFresh evs init)) = true
        <-> is_Some (inflight (run_events isFresh evs init) !! k))
  /\ CacheStatus true
     = elem "p" "text-sm mt-2"
         [elem "span" "text-blue-400" [VText "🔄 Fetching fresh data from server..."]]
  /\ CacheStatus false
     = elem "p" "text-sm mt-2"
         [elem "span" "text-green-400" [VText "✨ Served from cache (no network request)"]].
Proof.
  split; [| split; [| split]]; [| | reflexivity | reflexivity].
  - intros s k. unfold observe. cbn [isFetching]. rewrite bool_decide_eq_true.
    destruct (get k (store s)) as [e |]; cbn [default].
    + split; [eauto | by intros (? & [= <-] & ?)].
    + split; [done | by intros (? & [=] & _)].
  - intros isFresh evs k. apply isFetching_iff_inflight.
Qed.

(** ** Concrete runs *)

Example parse_iso_sample :
  parse_iso "2024-01-15T14:30:45.000Z" = Some 1705329045000.
Proof. reflexivity. Qed.

Example reference_time_sample :
  reference_toLocaleTimeString 1705329045000 = "14:30:45".
Proof. vm_compute. reflexivity. Qed.

Example parse_iso_rejects_other_text :
  parse_iso "" = None /\ parse_iso "yesterday" = None
  /\ parse_iso "2024-02-30T00:00:00.000Z" = None.
Proof. repeat split. Qed.





Lemma C8_successful_fetch_round_trip_witness :
  get posts_key (store (step always_stale (Settle 7 posts_key (inr (JArr []))) posts_in_flight))
  = Some (mkEntry posts_key (Some (JArr [])) 7 Success None).
Proof.
  apply (C8_successful_fetch_round_trip always_stale posts_in_flight posts_key
           [1%nat] 7 (JArr [])).
  reflexivity.
Defined.

Lemma C3_failure_preserves_stale_data_witness :
  let s := run_events always_stale
             [Settle 7 posts_key (inr (JArr [])); Request 8 2%nat posts_key on_refetch]
             posts_in_flight in
  get posts_key
      (store (step always_stale (Settle 9 posts_key (inl (new_Error "Failed to fetch data"))) s))
  = Some (mkEntry posts_key (Some (JArr [])) 7 Error (Some (new_Error "Failed to fetch data"))).
Proof.
  apply (C3_failure_preserves_stale_data always_stale posts_in_flight posts_key
           [1%nat] 7 (JArr []) [Request 8 2%nat posts_key on_refetch] [2%nat] 9
           (new_Error "Failed to fetch data")).
  - reflexivity.
  - repeat constructor.
  - vm_compute. reflexivity.
Defined.

(** ** The scenarios of the specification *)

(** A request for user 1 on an empty store: no entry (Idle), then Fetching,
    then Success with [data.id] equal to 1. *)
Example scenario_user_1 :
  let k := user_key 1 in
  let user := JObj [("id", JNum 1); ("name", JStr "Ada");
                    ("email", JStr "ada@example.com"); ("fetchedAt", JStr "14:30:45")] in
  let s1 := step always_stale (Request 0 1%nat k plain_request) init in
  let s2 := step always_stale (Settle 1 k (inr user)) s1 in
  RemoteDataSource_fetch user_1_host safe_of_Z k = Some (inr user)
  /\ observe k init = mkView None false None
  /\ get k (store s1) = Some (mkEntry k None 0 Fetching None)
  /\ get k (store s2) = Some (mkEntry k (Some user) 1 Success None)
  /\ js_get user "id" = Some (Some (JNum 1)).
Proof. vm_compute. done. Qed.

(** The fetch for the posts fails with no prior data: status Error, the
    fetcher's error, no data. *)
Example scenario_posts_failure :
  let failure := new_Error "Failed to fetch data" in
  RemoteDataSource_fetch failing_host safe_of_Z posts_key = Some (inl failure)
  /\ get posts_key (store (step always_stale (Settle 1 posts_key (inl failure)) posts_in_flight))
     = Some (mkEntry posts_key None 0 Error (Some failure)).
Proof. vm_compute. done. Qed.

(** Two forced refetches, the second after the first has settled, invoke two
    fetches. *)
Example scenario_sequential_refetch :
  fetches (run_events always_stale
             [ Request 0 1%nat posts_key on_refetch;
               Settle 1 posts_key (inr (JArr []));
               Request 2 1%nat posts_key on_refetch;
               Settle 3 posts_key (inr (JArr [])) ] init)
  = [posts_key; posts_key].
Proof. vm_compute. done. Qed.
